(** * Villa-RAG: the document ingestion and retrieval pipeline

    A shallow embedding of
    - [src/lib/rag/free-document-processor.ts] (class [FreeDocumentProcessor]),
    - the class [KnowledgeBase] and the [searchKnowledgeTool] found in
      [src/lib/ai/tools/search-knowledge.ts],
    - the two tables of [src/lib/db/migrations/0007_charming_cargill.sql].

    Conventions of the model.
    - A JavaScript string is a [string]; its characters are read as UTF-16
      code units (the ones below 256).  The rolling hash is defined and proved
      on arbitrary lists of code units.
    - A uuid is a non-empty [string]; what the database does with a string
      that is no uuid is outside the model.
    - A JavaScript number that holds an integer is a [Z] or a [nat]; a number
      that holds a score or a vector component is a rational [Q] (NaN and the
      infinities are outside the model).
    - An [async] method is a computation in the monad [M]: it reads and
      updates a [World] (the embedding backend, the session, the database) and
      either returns a value or throws an [Error].  The world reached when an
      exception is thrown is kept: nothing is rolled back.
    - Libraries and services that are called but are no part of the
      repository (pdf2json, tesseract, the text splitter, pgvector's distance
      operator, Math.sin, the UTF-8 codec, uuid generation) are fields of a
      [Platform]; the database engine is modelled by the statements the code
      issues on two lists of rows, with the constraints of the migration. *)

From Stdlib Require Import ZArith QArith Qround String Ascii List Lia Bool.
From Stdlib.Strings Require Import Byte.
From Stdlib Require Import DecimalString Permutation.
Import ListNotations.

Local Open Scope nat_scope.
Local Open Scope string_scope.
Local Open Scope list_scope.

(* ================================================================== *)
(** * JavaScript primitives                                            *)
(* ================================================================== *)

Module JS.

(** [ToInt32]: the value modulo 2^32, read as a signed 32-bit integer. *)
Definition toInt32 (z : Z) : Z := ((z + 2 ^ 31) mod 2 ^ 32 - 2 ^ 31)%Z.

(** [a << n] on numbers that hold integers. *)
Definition shl (a n : Z) : Z := toInt32 (Z.shiftl (toInt32 a) n).

(** [a & b]. *)
Definition band (a b : Z) : Z := Z.land (toInt32 a) (toInt32 b).

(** [s.charCodeAt(i)] for every [i], in order. *)
Definition charCodes (s : string) : list Z :=
  map (fun c => Z.of_N (N_of_ascii c)) (list_ascii_of_string s).

(** [x % 1]: the remainder has the sign of the dividend. *)
Definition rem1 (x : Q) : Q := (x - inject_Z (Z.quot (Qnum x) (Zpos (Qden x))))%Q.

(** [Math.round(x)]: the nearest integer, halves towards plus infinity. *)
Definition Math_round (x : Q) : Z := Qfloor (x + (1 # 2))%Q.

(** [`${n}`] for a non-negative integer. *)
Definition showNat (n : nat) : string := NilZero.string_of_uint (Nat.to_uint n).

(** White space of [String.prototype.trim] among the code units below 256. *)
Definition isSpace (c : ascii) : bool :=
  let n := nat_of_ascii c in
  ((9 <=? n) && (n <=? 13) || (n =? 32) || (n =? 160))%nat.

Fixpoint trimStart (s : string) : string :=
  match s with
  | String c r => if isSpace c then trimStart r else s
  | EmptyString => EmptyString
  end.

(** Drops the trailing white space: a character is kept when it is not
    white space or when something is kept after it. *)
Fixpoint trimEnd (s : string) : string :=
  match s with
  | String c r =>
      match trimEnd r with
      | EmptyString => if isSpace c then EmptyString else String c EmptyString
      | r' => String c r'
      end
  | EmptyString => EmptyString
  end.

Definition trim (s : string) : string := trimEnd (trimStart s).

(** [s.toLowerCase()] on code units below 256. *)
Definition lowerChar (c : ascii) : ascii :=
  let n := nat_of_ascii c in
  if ((65 <=? n) && (n <=? 90) || (192 <=? n) && (n <=? 222) && negb (n =? 215))%nat
  then ascii_of_nat (n + 32) else c.

Fixpoint toLowerCase (s : string) : string :=
  match s with
  | String c r => String (lowerChar c) (toLowerCase r)
  | EmptyString => EmptyString
  end.

(** [xs.join(sep)]. *)
Definition join (sep : string) (xs : list string) : string := String.concat sep xs.

(** Truthiness of a value of type [string | undefined]. *)
Definition truthy (s : option string) : bool :=
  match s with
  | Some v => negb (v =? "")
  | None => false
  end.

(** [[...new Set(xs)]]: the first occurrence of each element, in order. *)
Fixpoint uniq (seen xs : list string) : list string :=
  match xs with
  | [] => []
  | x :: r =>
      if existsb (String.eqb x) seen then uniq seen r else x :: uniq (x :: seen) r
  end.

End JS.

(* ================================================================== *)
(** * The hash-based fallback embedding                                *)
(* ================================================================== *)

(** [new Array(384)] and the bound of the filling loop. *)
Definition EMBEDDING_SIZE : nat := 384.

(** One turn of the hashing loop of [createHashBasedEmbedding]:
    [hash = (hash << 5) - hash + text.charCodeAt(i); hash = hash & hash]. *)
Definition hashStep (hash c : Z) : Z :=
  let hash1 := (JS.shl hash 5 - hash + c)%Z in
  JS.band hash1 hash1.

(** The loop over the code units, from [hash = 0]. *)
Definition hashCodes (cs : list Z) : Z := fold_left hashStep cs 0%Z.

(** The polynomial [c_0 * 31^(n-1) + ... + c_(n-1)] computed without any
    wrap-around, in Horner form: the reading of "polynomial rolling hash". *)
Definition poly31 (cs : list Z) : Z := fold_left (fun h c => (31 * h + c)%Z) cs 0%Z.

(** The multiplier [43758.5453]. *)
Definition SCALE : Q := (437585453 # 10000)%Q.

(* ================================================================== *)
(** * Data model                                                       *)
(* ================================================================== *)

(** A Node [Buffer]. *)
Definition Buffer : Type := list byte.

(** A thrown [Error] and its message. *)
Inductive Error : Type := mkError (message : string).

Definition message (e : Error) : string := let 'mkError m := e in m.

(** What [hf.featureExtraction] resolves to: an array of numbers, or an
    array of arrays of numbers. *)
Inductive FeatureExtractionOutput : Type :=
| Flat (v : list Q)
| Nested (rows : list (list Q)).

(** The [metadata] object of a chunk; the key [fallback] is either absent
    ([false]) or [true]. *)
Record ChunkMetadata : Type := {
  md_filename : string;
  md_chunkLength : nat;
  md_totalChunks : nat;
  md_fallback : bool }.

(** [interface DocumentChunk] of the processor. *)
Record DocumentChunk : Type := {
  content : string;
  embedding : list Q;
  chunkIndex : nat;
  metadata : ChunkMetadata }.

Record ProcessedMetadata : Type := {
  pm_filename : string;
  pm_fileType : string;
  pm_fileSize : nat;
  pm_totalChunks : nat }.

(** [interface ProcessedDocument]. *)
Record ProcessedDocument : Type := {
  pd_content : string;
  pd_chunks : list DocumentChunk;
  pd_metadata : ProcessedMetadata }.

(** A row of the table ["KnowledgeDocument"]; [uploadedAt] is a logical
    time. *)
Record KnowledgeDocument : Type := {
  id : string;
  title : string;
  filename : string;
  fileType : string;
  doc_content : option string;
  fileSize : option nat;
  uploadedAt : nat;
  userId : string }.

(** A row of the table ["DocumentChunk"]; the columns [id] and [createdAt],
    which no operation reads, are left out. *)
Record ChunkRow : Type := {
  row_documentId : string;
  row_content : string;
  row_embedding : list Q;
  row_chunkIndex : nat;
  row_metadata : ChunkMetadata }.

(** [interface SearchResult]. *)
Record SearchResult : Type := {
  chunk : ChunkRow;
  document : KnowledgeDocument;
  similarity : Q }.

(** The data handed over by pdf2json; every property may be missing. *)
Record PdfRun : Type := { run_T : option string }.
Record PdfTextItem : Type := { item_R : option (list PdfRun) }.
Record PdfPage : Type := { page_Texts : option (list PdfTextItem) }.
Record PdfData : Type := { data_Pages : option (list PdfPage) }.

(** What happens after [pdfParser.parseBuffer(buffer)]: the dynamic import
    fails, or one of the two events is emitted. *)
Inductive PdfEvent : Type :=
| pdfImportError
| pdfParser_dataError
| pdfParser_dataReady (pdfData : PdfData).

(** The options given to [new RecursiveCharacterTextSplitter]. *)
Record SplitterParams : Type := {
  chunkSize : nat;
  chunkOverlap : nat;
  separators : list string }.

(** One entry of [results] in the answer of the search tool. *)
Record ToolResult : Type := {
  tr_rank : nat;
  tr_content : string;
  tr_source : string;
  tr_filename : string;
  tr_similarity : Z }.

(** The object returned by [searchKnowledgeTool.execute]. *)
Record ToolOutput : Type := {
  success : bool;
  out_message : string;
  out_content : option string;
  out_sources : option (list string);
  out_totalChunks : option nat;
  results : list ToolResult;
  out_error : option string }.

(** The database: the two tables and a counter that numbers the rows
    inserted so far (it seeds [gen_random_uuid()] and [now()]). *)
Record Db : Type := {
  documents : list KnowledgeDocument;
  chunks : list ChunkRow;
  serial : nat }.

(** What [auth()] does: it throws an error, or resolves to a session whose
    [user.id] may be missing. *)
Inductive AuthOutcome : Type :=
| authThrows (e : Error)
| authSession (user_id : option string).

(** The state a request runs in.  [hf] is the script of the embedding
    backend: each call of [featureExtraction] consumes its head, [None] is a
    rejected call, and an exhausted script rejects every call. *)
Record World : Type := {
  hf : list (option FeatureExtractionOutput);
  session : AuthOutcome;
  db : Db }.

Definition setDb (w : World) (d : Db) : World :=
  {| hf := hf w; session := session w; db := d |}.

Definition setHf (w : World) (s : list (option FeatureExtractionOutput)) : World :=
  {| hf := s; session := session w; db := db w |}.

(** The collaborators outside the repository. *)
Record Platform : Type := {
  (** [Math.sin] on an integer, its result taken as a rational *)
  Math_sin : Z -> Q;
  (** pgvector's [<=>] *)
  cosineDistance : list Q -> list Q -> Q;
  (** the declared dimension of the column ["embedding"] (1536 in the
      migration 0007) *)
  vectorDim : nat;
  (** [gen_random_uuid()] for the n-th inserted row *)
  gen_random_uuid : nat -> string;
  (** [buffer.toString('utf-8')] and [Buffer.from(text)] *)
  Buffer_toString : Buffer -> string;
  Buffer_from : string -> Buffer;
  (** [decodeURIComponent]; [None] when it throws a URIError *)
  decodeURIComponent : string -> option string;
  (** pdf2json on a buffer *)
  pdf2json : Buffer -> PdfEvent;
  (** sharp followed by tesseract; [None] when either throws *)
  recognize : Buffer -> option string;
  (** [new RecursiveCharacterTextSplitter(params).splitText] *)
  RecursiveCharacterTextSplitter : SplitterParams -> string -> list string }.

(* ================================================================== *)
(** * Computations that may throw                                      *)
(* ================================================================== *)

Inductive Result (A : Type) : Type :=
| Ok (a : A)
| Throw (e : Error).

Arguments Ok {A} a.
Arguments Throw {A} e.

Definition M (A : Type) : Type := World -> Result A * World.

Definition ret {A : Type} (a : A) : M A := fun w => (Ok a, w).

Definition throw {A : Type} (e : Error) : M A := fun w => (Throw e, w).

Definition bind {A B : Type} (m : M A) (k : A -> M B) : M B :=
  fun w =>
    match m w with
    | (Ok a, w1) => k a w1
    | (Throw e, w1) => (Throw e, w1)
    end.

(** [try { m } catch (error) { h(error) }]. *)
Definition tryCatch {A : Type} (m : M A) (h : Error -> M A) : M A :=
  fun w =>
    match m w with
    | (Ok a, w1) => (Ok a, w1)
    | (Throw e, w1) => h e w1
    end.

Notation "'let!' x ':=' m 'in' k" := (bind m (fun x => k))
  (at level 10, x name, m at level 100, k at level 200, only parsing).

Notation "m ';;' k" := (bind m (fun _ => k))
  (at level 100, right associativity, only parsing).

(** [for (const x of xs) { await body(x) }]. *)
Fixpoint forEach {A : Type} (xs : list A) (body : A -> M unit) : M unit :=
  match xs with
  | [] => ret tt
  | x :: rest => body x ;; forEach rest body
  end.

Definition getDb : M Db := fun w => (Ok (db w), w).

Definition putDb (d : Db) : M unit := fun w => (Ok tt, setDb w d).

(** A stable insertion sort: [ORDER BY] with [leb] as the order. *)
Fixpoint insertBy {A : Type} (leb : A -> A -> bool) (x : A) (l : list A) : list A :=
  match l with
  | [] => [x]
  | y :: r => if leb x y then x :: l else y :: insertBy leb x r
  end.

Definition sortBy {A : Type} (leb : A -> A -> bool) (l : list A) : list A :=
  fold_right (insertBy leb) [] l.

(** [xs.map((x, index) => f(index, x))], counting from [i]. *)
Fixpoint mapi {A B : Type} (f : nat -> A -> B) (i : nat) (xs : list A) : list B :=
  match xs with
  | [] => []
  | x :: r => f i x :: mapi f (S i) r
  end.

(* ================================================================== *)
(** * FreeDocumentProcessor                                            *)
(* ================================================================== *)

Section Processor.

Variable P : Platform.

(** [(Math.sin(seed) * 43758.5453) % 1]. *)
Definition component (seed : Z) : Q := JS.rem1 (Math_sin P seed * SCALE)%Q.

(** [createHashBasedEmbedding(text)]. *)
Definition createHashBasedEmbedding (text : string) : list Q :=
  let hash := hashCodes (JS.charCodes text) in
  map (fun i => component (hash + Z.of_nat i)) (seq 0 EMBEDDING_SIZE).

(** The splitter built by the constructor. *)
Definition textSplitter : string -> list string :=
  RecursiveCharacterTextSplitter P
    {| chunkSize := 1000;
       chunkOverlap := 200;
       separators := [String "010" (String "010" ""); String "010" ""; ". "; " "; ""] |}.

(** The list [models] of [createChunks] and of [embedQuery]. *)
Definition MODELS : list string :=
  [ "sentence-transformers/paraphrase-MiniLM-L6-v2";
    "sentence-transformers/all-MiniLM-L6-v2";
    "sentence-transformers/paraphrase-multilingual-MiniLM-L12-v2" ].

(** [this.hf.featureExtraction({ model, inputs })]: the next entry of the
    script decides. *)
Definition featureExtraction (model inputs : string) : M FeatureExtractionOutput :=
  fun w =>
    match hf w with
    | [] => (Throw (mkError "featureExtraction failed"), w)
    | None :: rest => (Throw (mkError "featureExtraction failed"), setHf w rest)
    | Some out :: rest => (Ok out, setHf w rest)
    end.

(** [Array.isArray(embedding[0]) ? embedding[0] : embedding]. *)
Definition flatEmbedding (out : FeatureExtractionOutput) : list Q :=
  match out with
  | Flat v => v
  | Nested (row :: _) => row
  | Nested [] => []
  end.

(** The loop over [models] in [embedQuery]: the first call that resolves
    returns, a rejected call moves on to the next model. *)
Fixpoint embedQueryLoop (models : list string) (query : string) : M (list Q) :=
  match models with
  | [] => throw (mkError "All query embedding models failed")
  | model :: rest =>
      tryCatch
        (let! out := featureExtraction model query in ret (flatEmbedding out))
        (fun _ => embedQueryLoop rest query)
  end.

(** [embedQuery(query)]. *)
Definition embedQuery (query : string) : M (list Q) :=
  tryCatch (embedQueryLoop MODELS query)
           (fun _ => ret (createHashBasedEmbedding query)).

(** The loop over [models] in [createChunks]; [None] is [success === false]
    at its end. *)
Fixpoint featureExtractionLoop (models : list string) (inputs : string)
  : M (option FeatureExtractionOutput) :=
  match models with
  | [] => ret None
  | model :: rest =>
      tryCatch
        (let! out := featureExtraction model inputs in ret (Some out))
        (fun _ => featureExtractionLoop rest inputs)
  end.

Definition chunkMetadata (name : string) (chunkContent : string) (total : nat)
  (fallback : bool) : ChunkMetadata :=
  {| md_filename := name;
     md_chunkLength := String.length chunkContent;
     md_totalChunks := total;
     md_fallback := fallback |}.

(** The body of the loop of [createChunks] for [textChunks[i]]. *)
Definition embedChunk (name : string) (total i : nat) (chunkContent : string)
  : M DocumentChunk :=
  tryCatch
    (let! found := featureExtractionLoop MODELS chunkContent in
     match found with
     | None => throw (mkError "All embedding models failed")
     | Some out =>
         ret {| content := chunkContent;
                embedding := flatEmbedding out;
                chunkIndex := i;
                metadata := chunkMetadata name chunkContent total false |}
     end)
    (fun _ =>
       ret {| content := chunkContent;
              embedding := createHashBasedEmbedding chunkContent;
              chunkIndex := i;
              metadata := chunkMetadata name chunkContent total true |}).

Fixpoint createChunksLoop (name : string) (total i : nat) (textChunks : list string)
  : M (list DocumentChunk) :=
  match textChunks with
  | [] => ret []
  | chunkContent :: rest =>
      let! c := embedChunk name total i chunkContent in
      let! cs := createChunksLoop name total (S i) rest in
      ret (c :: cs)
  end.

(** [createChunks(content, filename)]. *)
Definition createChunks (text : string) (name : string) : M (list DocumentChunk) :=
  let textChunks := textSplitter text in
  createChunksLoop name (length textChunks) 0 textChunks.

(** The text read from the runs of one text item; [None] when
    [decodeURIComponent] throws. *)
Fixpoint readRuns (runs : list PdfRun) (text : string) : option string :=
  match runs with
  | [] => Some text
  | run :: rest =>
      if JS.truthy (run_T run) then
        match decodeURIComponent P (match run_T run with Some t => t | None => "" end) with
        | Some decoded => readRuns rest (text ++ decoded ++ " ")%string
        | None => None
        end
      else readRuns rest text
  end.

Fixpoint readTexts (items : list PdfTextItem) (text : string) : option string :=
  match items with
  | [] => Some text
  | textItem :: rest =>
      match item_R textItem with
      | Some runs =>
          match readRuns runs text with
          | Some text1 => readTexts rest text1
          | None => None
          end
      | None => readTexts rest text
      end
  end.

Fixpoint readPages (pages : list PdfPage) (text : string) : option string :=
  match pages with
  | [] => Some text
  | page :: rest =>
      match page_Texts page with
      | Some items =>
          match readTexts items text with
          | Some text1 => readPages rest (text1 ++ String "010" "")%string
          | None => None
          end
      | None => readPages rest text
      end
  end.

(** The text built by the handler of [pdfParser_dataReady]. *)
Definition readPdfData (pdfData : PdfData) : option string :=
  match data_Pages pdfData with
  | Some pages => readPages pages ""
  | None => Some ""
  end.

Definition emptyPdfMessage (size : nat) : string :=
  ("[PDF Content] - This PDF appears to be empty or contains only images. File size: "
     ++ JS.showNat size ++ " bytes.")%string.

Definition unreadablePdfMessage (size : nat) : string :=
  ("[PDF Content] - Could not extract text from this PDF. It may contain only images or be encrypted. File size: "
     ++ JS.showNat size ++ " bytes.")%string.

(** [processPDF(buffer)]. *)
Definition processPDF (buffer : Buffer) : M string :=
  match pdf2json P buffer with
  | pdfImportError => throw (mkError "Failed to process PDF file")
  | pdfParser_dataError => throw (mkError "Failed to parse PDF")
  | pdfParser_dataReady pdfData =>
      match readPdfData pdfData with
      | Some text =>
          let cleanText := JS.trim text in
          if (String.length cleanText =? 0)%nat
          then ret (emptyPdfMessage (length buffer))
          else ret cleanText
      | None => ret (unreadablePdfMessage (length buffer))
      end
  end.

(** [processImage(buffer)]. *)
Definition processImage (buffer : Buffer) : M string :=
  match recognize P buffer with
  | Some text => ret text
  | None => throw (mkError "Failed to process image file")
  end.

(** The [switch] of [processDocument]. *)
Definition extractContent (buffer : Buffer) (kind : string) : M string :=
  let lowered := JS.toLowerCase kind in
  if lowered =? "pdf" then processPDF buffer
  else if lowered =? "txt" then ret (Buffer_toString P buffer)
  else if lowered =? "image" then processImage buffer
  else throw (mkError ("Unsupported file type: " ++ kind)%string).

(** [processDocument(buffer, filename, fileType)]. *)
Definition processDocument (buffer : Buffer) (name kind : string) : M ProcessedDocument :=
  let! text := extractContent buffer kind in
  let! cs := createChunks text name in
  ret {| pd_content := text;
         pd_chunks := cs;
         pd_metadata := {| pm_filename := name;
                           pm_fileType := kind;
                           pm_fileSize := length buffer;
                           pm_totalChunks := length cs |} |}.

End Processor.

(* ================================================================== *)
(** * The two tables                                                   *)
(* ================================================================== *)

Section Store.

Variable P : Platform.

(** [db.insert(knowledgeDocument).values({...}).returning()]: the row gets
    its [id] and [uploadedAt] defaults; the primary key refuses an [id] that
    is already there. *)
Definition insertKnowledgeDocument (title_ filename_ fileType_ content_ : string)
  (fileSize_ : nat) (userId_ : string) : M KnowledgeDocument :=
  let! d := getDb in
  let row := {| id := gen_random_uuid P (serial d);
                title := title_;
                filename := filename_;
                fileType := fileType_;
                doc_content := Some content_;
                fileSize := Some fileSize_;
                uploadedAt := serial d;
                userId := userId_ |} in
  if existsb (fun r => id r =? id row) (documents d)
  then throw (mkError "duplicate key value violates unique constraint")
  else
    putDb {| documents := documents d ++ [row];
             chunks := chunks d;
             serial := S (serial d) |} ;;
    ret row.

(** [db.insert(documentChunk).values({...})]: the column [vector(n)] refuses
    a vector of another dimension, the foreign key refuses a [documentId]
    that is no document. *)
Definition insertDocumentChunk (row : ChunkRow) : M unit :=
  let! d := getDb in
  if negb (length (row_embedding row) =? vectorDim P)%nat
  then throw (mkError "expected a vector of the declared dimension")
  else if negb (existsb (fun r => id r =? row_documentId row) (documents d))
  then throw (mkError "insert violates foreign key constraint")
  else putDb {| documents := documents d;
                chunks := chunks d ++ [row];
                serial := serial d |}.

(** The tables after [DELETE FROM "KnowledgeDocument" WHERE cond], with the
    cascade of [DocumentChunk_documentId_KnowledgeDocument_id_fk]: the chunks
    of a deleted document go with it. *)
Definition afterDelete (cond : KnowledgeDocument -> bool) (d : Db) : Db :=
  {| documents := filter (fun r => negb (cond r)) (documents d);
     chunks := filter (fun c => negb (existsb (fun r => id r =? row_documentId c)
                                        (filter cond (documents d))))
                      (chunks d);
     serial := serial d |}.

Definition deleteDocumentsWhere (cond : KnowledgeDocument -> bool) : M unit :=
  let! d := getDb in putDb (afterDelete cond d).

(** [DELETE FROM "DocumentChunk" WHERE cond]. *)
Definition deleteChunksWhere (cond : ChunkRow -> bool) : M unit :=
  let! d := getDb in
  putDb {| documents := documents d;
           chunks := filter (fun c => negb (cond c)) (chunks d);
           serial := serial d |}.

(** A row after [SET content = text]. *)
Definition setContent (text : string) (r : KnowledgeDocument) : KnowledgeDocument :=
  {| id := id r; title := title r; filename := filename r; fileType := fileType r;
     doc_content := Some text; fileSize := fileSize r; uploadedAt := uploadedAt r;
     userId := userId r |}.

(** [UPDATE "KnowledgeDocument" SET content = text WHERE cond]. *)
Definition updateContentWhere (text : string) (cond : KnowledgeDocument -> bool) : M unit :=
  let! d := getDb in
  putDb {| documents := map (fun r => if cond r then setContent text r else r) (documents d);
           chunks := chunks d;
           serial := serial d |}.

(** [FROM "DocumentChunk" INNER JOIN "KnowledgeDocument" ON documentId = id]. *)
Definition innerJoin (d : Db) : list (ChunkRow * KnowledgeDocument) :=
  flat_map (fun c => map (fun r => (c, r))
                         (filter (fun r => row_documentId c =? id r) (documents d)))
           (chunks d).

End Store.

(* ================================================================== *)
(** * KnowledgeBase                                                    *)
(* ================================================================== *)

Section KnowledgeBase.

Variable P : Platform.

(** The row inserted for a chunk of the document [documentId]. *)
Definition chunkValues (documentId : string) (c : DocumentChunk) : ChunkRow :=
  {| row_documentId := documentId;
     row_content := content c;
     row_embedding := embedding c;
     row_chunkIndex := chunkIndex c;
     row_metadata := metadata c |}.

(** [for (const chunk of processed.chunks) { await db.insert(...) }]. *)
Definition insertChunks (documentId : string) (cs : list DocumentChunk) : M unit :=
  forEach cs (fun c => insertDocumentChunk P (chunkValues documentId c)).

(** [addDocument(buffer, filename, fileType, title, userId)]. *)
Definition addDocument (buffer : Buffer) (filename_ fileType_ title_ userId_ : string)
  : M KnowledgeDocument :=
  tryCatch
    (let! processed := processDocument P buffer filename_ fileType_ in
     let! doc := insertKnowledgeDocument P title_ filename_ fileType_
                   (pd_content processed) (pm_fileSize (pd_metadata processed)) userId_ in
     insertChunks (id doc) (pd_chunks processed) ;;
     ret doc)
    (fun _ => throw (mkError "Failed to add document to knowledge base")).

(** [1 - (embedding <=> queryEmbedding)]. *)
Definition similarityTo (queryEmbedding : list Q) (c : ChunkRow) : Q :=
  (1 - cosineDistance P (row_embedding c) queryEmbedding)%Q.

(** The array [whereConditions] of [searchSimilar]: the similarity
    condition, and the owner condition pushed under [if (userId)]. *)
Definition whereConditions (queryEmbedding : list Q) (similarityThreshold : Q)
  (userId_ : option string) : list (ChunkRow * KnowledgeDocument -> bool) :=
  [fun row => negb (Qle_bool (similarityTo queryEmbedding (fst row)) similarityThreshold)]
  ++ (if JS.truthy userId_
      then [fun row => userId (snd row) =? match userId_ with Some u => u | None => "" end]
      else []).

(** [and(...conditions)]. *)
Definition and_ {A : Type} (conditions : list (A -> bool)) (row : A) : bool :=
  forallb (fun cond => cond row) conditions.

(** [ORDER BY similarity DESC]. *)
Definition bySimilarityDesc (a b : SearchResult) : bool :=
  Qle_bool (similarity b) (similarity a).

(** The columns selected for a row of the join. *)
Definition selectColumns (queryEmbedding : list Q) (row : ChunkRow * KnowledgeDocument)
  : SearchResult :=
  {| chunk := fst row;
     document := snd row;
     similarity := similarityTo queryEmbedding (fst row) |}.

(** The [select] of [searchSimilar]; a negative [LIMIT] is an error. *)
Definition selectSimilar (queryEmbedding : list Q) (limit : Z) (similarityThreshold : Q)
  (userId_ : option string) : M (list SearchResult) :=
  let! d := getDb in
  let rows := filter (and_ (whereConditions queryEmbedding similarityThreshold userId_))
                     (innerJoin d) in
  let selected := map (selectColumns queryEmbedding) rows in
  if (limit <? 0)%Z
  then throw (mkError "LIMIT must not be negative")
  else ret (firstn (Z.to_nat limit) (sortBy bySimilarityDesc selected)).

(** [searchSimilar(query, limit, similarityThreshold, userId)]. *)
Definition searchSimilar (query : string) (limit : Z) (similarityThreshold : Q)
  (userId_ : option string) : M (list SearchResult) :=
  tryCatch
    (let! queryEmbedding := embedQuery P query in
     let! found := selectSimilar queryEmbedding limit similarityThreshold userId_ in
     ret (map (fun r => {| chunk := chunk r; document := document r;
                           similarity := similarity r |}) found))
    (fun _ => throw (mkError "Failed to search knowledge base")).

(** [ORDER BY uploadedAt DESC]. *)
Definition byUploadedAtDesc (a b : KnowledgeDocument) : bool :=
  (uploadedAt b <=? uploadedAt a)%nat.

(** [getDocuments(userId)]. *)
Definition getDocuments (userId_ : string) : M (list KnowledgeDocument) :=
  let! d := getDb in
  ret (sortBy byUploadedAtDesc (filter (fun r => userId r =? userId_) (documents d))).

(** The condition [id = documentId AND userId = userId] of [deleteDocument]
    and of [reprocessDocument]. *)
Definition ownedBy (documentId userId_ : string) (r : KnowledgeDocument) : bool :=
  (id r =? documentId) && (userId r =? userId_).

(** [deleteDocument(documentId, userId)]. *)
Definition deleteDocument (documentId userId_ : string) : M unit :=
  deleteDocumentsWhere (ownedBy documentId userId_).

(** [ORDER BY chunkIndex]. *)
Definition byChunkIndex (a b : ChunkRow) : bool :=
  (row_chunkIndex a <=? row_chunkIndex b)%nat.

(** [getDocumentChunks(documentId)]. *)
Definition getDocumentChunks (documentId : string) : M (list ChunkRow) :=
  let! d := getDb in
  ret (sortBy byChunkIndex (filter (fun c => row_documentId c =? documentId) (chunks d))).

(** The text that [reprocessDocument] stores in place of the content. *)
Definition reprocessMessage (filename_ : string) : string :=
  ("This document (" ++ filename_
     ++ ") needs to be re-uploaded to extract its content properly. The PDF text extraction has been improved and will now work correctly for new uploads.")%string.

(** The [select ... limit(1)] at the head of [reprocessDocument]. *)
Definition selectOwnedDocument (documentId userId_ : string) : M (option KnowledgeDocument) :=
  let! d := getDb in
  ret (hd_error (filter (ownedBy documentId userId_) (documents d))).

(** [new Error('Document not found or access denied')]. *)
Definition notFound : Error := mkError "Document not found or access denied".

(** [new Error('Failed to reprocess document')]. *)
Definition reprocessFailed : Error := mkError "Failed to reprocess document".

(** The body of the [try] of [reprocessDocument]. *)
Definition reprocessBody (documentId userId_ : string) : M unit :=
  let! found := selectOwnedDocument documentId userId_ in
  match found with
  | None => throw notFound
  | Some doc =>
      deleteChunksWhere (fun c => row_documentId c =? documentId) ;;
      let text := reprocessMessage (filename doc) in
      updateContentWhere text (fun r => id r =? documentId) ;;
      let! processed := processDocument P (Buffer_from P text) (filename doc) "txt" in
      insertChunks (id doc) (pd_chunks processed)
  end.

(** [reprocessDocument(documentId, userId)]. *)
Definition reprocessDocument (documentId userId_ : string) : M unit :=
  tryCatch (reprocessBody documentId userId_) (fun _ => throw reprocessFailed).

(* ================================================================== *)
(** * searchKnowledgeTool                                              *)
(* ================================================================== *)

(** [await auth()]. *)
Definition auth : M (option string) :=
  fun w =>
    match session w with
    | authThrows e => (Throw e, w)
    | authSession user_id => (Ok user_id, w)
    end.

Definition failure (text : string) (err : option string) : ToolOutput :=
  {| success := false;
     out_message := text;
     out_content := None;
     out_sources := None;
     out_totalChunks := None;
     results := [];
     out_error := err |}.

(** One entry of the breakdown: [results.map((result, index) => ...)]. *)
Definition toolResult (index : nat) (r : SearchResult) : ToolResult :=
  {| tr_rank := index + 1;
     tr_content := row_content (chunk r);
     tr_source := title (document r);
     tr_filename := filename (document r);
     tr_similarity := JS.Math_round (similarity r * 100)%Q |}.

(** The answer built from a non-empty result list. *)
Definition found (rs : list SearchResult) : ToolOutput :=
  let allContent := JS.join (String "010" (String "010" ""))
                            (map (fun r => row_content (chunk r)) rs) in
  let sources := JS.uniq [] (map (fun r => title (document r)) rs) in
  {| success := true;
     out_message := ("Found detailed information from " ++ JS.showNat (length sources)
                       ++ " document(s)")%string;
     out_content := Some allContent;
     out_sources := Some sources;
     out_totalChunks := Some (length rs);
     results := mapi toolResult 0 rs;
     out_error := None |}.

(** [execute({ query, limit })]. *)
Definition execute (query : string) (limit : Z) : M ToolOutput :=
  tryCatch
    (let! user_id := auth in
     if negb (JS.truthy user_id)
     then ret (failure "Authentication required" None)
     else
       let! rs := searchSimilar query limit (2 # 10)%Q user_id in
       if (length rs =? 0)%nat
       then ret (failure "No relevant information found in uploaded documents." None)
       else ret (found rs))
    (fun error => ret (failure "Error searching documents" (Some (message error)))).

End KnowledgeBase.

(* ================================================================== *)
(** * The text splitter                                                *)
(* ================================================================== *)

(** Modelled from the spec: a helper of the splitter below.  The end of the
    last occurrence of [sep] in [text] that ends at a position in
    [lo+1 .. e]. *)
Fixpoint lastCut (sep text : string) (lo e : nat) : option nat :=
  match e with
  | O => None
  | S e' =>
      if (e <=? lo)%nat then None
      else if (String.length sep <=? e)%nat
              && (substring (e - String.length sep) (String.length sep) text =? sep)
      then Some e
      else lastCut sep text lo e'
  end.

(** Modelled from the spec: the cascade of preferred separators.  The next
    segment ends after the last occurrence of the first separator of the
    cascade that occurs far enough in the window, and at the size bound when
    the cascade reaches the empty separator or its end. *)
Fixpoint chooseCut (seps : list string) (text : string) (lo size : nat) : nat :=
  match seps with
  | [] => size
  | sep :: rest =>
      if sep =? "" then size
      else match lastCut sep text lo size with
           | Some e => e
           | None => chooseCut rest text lo size
           end
  end.

(** Modelled from the spec: segments of at most [chunkSize] characters,
    each starting [chunkOverlap] characters before the end of the one before;
    a text that fits in one segment is that segment. *)
Fixpoint splitFrom (fuel : nat) (params : SplitterParams) (text : string) : list string :=
  match fuel with
  | O => []
  | S fuel' =>
      if (String.length text <=? chunkSize params)%nat then [text]
      else
        let cut := chooseCut (separators params) text (chunkOverlap params) (chunkSize params) in
        let next := (cut - chunkOverlap params)%nat in
        substring 0 cut text
          :: splitFrom fuel' params (substring next (String.length text - next) text)
  end.

(** Modelled from the spec: [RecursiveCharacterTextSplitter.splitText] of the
    langchain package, whose code is not under src/.  Section 4.2 of the
    specification: the text is cut into segments of at most [chunkSize]
    characters, at the preferred separator of largest granularity that
    respects the bound (a hard cut as the last resort); adjacent segments
    share [chunkOverlap] characters; the empty text gives no segment and a
    text shorter than one segment gives itself. *)
Definition specSplitText (params : SplitterParams) (text : string) : list string :=
  if text =? "" then [] else splitFrom (String.length text) params text.

(* ================================================================== *)
(** * A platform and worlds to run the model on                        *)
(* ================================================================== *)

Fixpoint sameVector (a b : list Q) : bool :=
  match a, b with
  | [], [] => true
  | x :: a', y :: b' => Qeq_bool x y && sameVector a' b'
  | _, _ => false
  end.

(** A platform whose column has [dim] components: equal vectors are at
    distance 0 and different ones at distance 1, the codec maps a byte to
    the character of the same code, pdf2json finds no page in any file. *)
Definition demoPlatform (dim : nat) : Platform :=
  {| Math_sin := fun z => (Z.rem z 1000 # 1000)%Q;
     cosineDistance := fun a b => if sameVector a b then 0%Q else 1%Q;
     vectorDim := dim;
     gen_random_uuid := fun n => ("doc-" ++ JS.showNat n)%string;
     Buffer_toString := string_of_list_byte;
     Buffer_from := list_byte_of_string;
     decodeURIComponent := fun s => Some s;
     pdf2json := fun _ => pdfParser_dataReady {| data_Pages := Some [] |};
     recognize := fun _ => Some "";
     RecursiveCharacterTextSplitter := specSplitText |}.

Definition emptyDb : Db := {| documents := []; chunks := []; serial := 0 |}.

(** A world with no document, in which the embedding backend is down and
    [user] is signed in. *)
Definition offlineWorld (user : string) : World :=
  {| hf := []; session := authSession (Some user); db := emptyDb |}.

Definition demoMetadata : ChunkMetadata :=
  {| md_filename := "rules.txt"; md_chunkLength := 5; md_totalChunks := 1; md_fallback := true |}.

(** A document of the user [u2] and its only chunk, whose vector is the
    fallback embedding of its text. *)
Definition u2Document : KnowledgeDocument :=
  {| id := "doc-0"; title := "Rules"; filename := "rules.txt"; fileType := "txt";
     doc_content := Some "hello"; fileSize := Some 5; uploadedAt := 0; userId := "u2" |}.

Definition u2Chunk : ChunkRow :=
  {| row_documentId := "doc-0"; row_content := "hello";
     row_embedding := createHashBasedEmbedding (demoPlatform 384) "hello";
     row_chunkIndex := 0; row_metadata := demoMetadata |}.

(** The world that holds this document alone; the backend is down. *)
Definition u2World (user : option string) : World :=
  {| hf := [];
     session := authSession user;
     db := {| documents := [u2Document]; chunks := [u2Chunk]; serial := 1 |} |}.

(** A text of 1200 characters without any separator, as a file. *)
Definition longFile : Buffer :=
  list_byte_of_string (string_of_list_ascii (repeat "a"%char 1200)).

(** A world with no document in which the backend answers one call, with a
    vector of 1536 components, and is down afterwards. *)
Definition oneAnswerWorld : World :=
  {| hf := [Some (Flat (repeat 0%Q 1536))];
     session := authSession (Some "u1");
     db := emptyDb |}.

(* ================================================================== *)
(** * Predicates used in the statements                                *)
(* ================================================================== *)

(** Every vector the backend still has to return has the dimension of the
    configured models. *)
Definition conforming (script : list (option FeatureExtractionOutput)) : Prop :=
  Forall (fun o => match o with
                   | Some out => length (flatEmbedding out) = EMBEDDING_SIZE
                   | None => True
                   end) script.

(** The next [n] calls of the backend are rejected. *)
Definition allRejected (n : nat) (script : list (option FeatureExtractionOutput)) : Prop :=
  forall o, In o (firstn n script) -> o = None.

(** [w'] has the database and the session of [w]. *)
Definition sameStore (w w' : World) : Prop :=
  db w' = db w /\ session w' = session w.

(** The chunk [c] carries the fallback embedding of its own text. *)
Definition isFallback (P : Platform) (c : DocumentChunk) : Prop :=
  md_fallback (metadata c) = true /\
  embedding c = createHashBasedEmbedding P (content c).

(** [w'] is [w] with the rows [rows] appended to the table of chunks. *)
Definition appended (w w' : World) (rows : list ChunkRow) : Prop :=
  hf w' = hf w /\ session w' = session w /\
  documents (db w') = documents (db w) /\
  chunks (db w') = chunks (db w) ++ rows /\
  serial (db w') = serial (db w).

(** The column ["embedding"] accepts the vector of the chunk [c]. *)
Definition accepted (P : Platform) (c : DocumentChunk) : Prop :=
  length (embedding c) = vectorDim P.

(** The row that [addDocument] inserts for a processed document. *)
Definition documentValues (P : Platform) (title_ filename_ fileType_ userId_ : string)
  (pd : ProcessedDocument) (d : Db) : KnowledgeDocument :=
  {| id := gen_random_uuid P (serial d);
     title := title_;
     filename := filename_;
     fileType := fileType_;
     doc_content := Some (pd_content pd);
     fileSize := Some (pm_fileSize (pd_metadata pd));
     uploadedAt := serial d;
     userId := userId_ |}.

(** Every chunk references a stored document. *)
Definition referentialIntegrity (d : Db) : Prop :=
  forall c, In c (chunks d) -> exists r, In r (documents d) /\ id r = row_documentId c.

(** The constraints of the two tables: the primary key of the documents, the
    foreign key of the chunks, and the dimension of the vector column. *)
Definition wellFormed (P : Platform) (d : Db) : Prop :=
  NoDup (map id (documents d)) /\
  referentialIntegrity d /\
  (forall c, In c (chunks d) -> length (row_embedding c) = vectorDim P).

(** The computation [m] keeps the property [I] of the database, whether it
    returns or throws. *)
Definition preserves {A : Type} (I : Db -> Prop) (m : M A) : Prop :=
  forall w r w', m w = (r, w') -> I (db w) -> I (db w').

From Stdlib Require Import Sorting.Sorted.

(* ================================================================== *)
(** * The HTTP routes                                                  *)
(* ================================================================== *)

(** A [File] of the form data; [file.size] is the number of its bytes. *)
Record File : Type := {
  file_name : string;
  file_type : string;
  file_bytes : Buffer }.

Definition file_size (f : File) : Z := Z.of_nat (length (file_bytes f)).

(** The fields read from [request.formData()]; each may be missing. *)
Record UploadForm : Type := {
  form_file : option File;
  form_title : option string }.

(** The object [document] of the answer of the upload route, which is also
    [interface UploadedDocument] of the component. *)
Record UploadedDocument : Type := {
  ud_id : string;
  ud_title : string;
  ud_filename : string;
  ud_fileType : string;
  ud_uploadedAt : nat }.

(** The JSON bodies the routes answer with: [{ error }],
    [{ success: true, document }], [{ documents }] and [{ success: true }]. *)
Inductive Body : Type :=
| errorBody (error : string)
| uploadedBody (uploaded : UploadedDocument)
| documentsBody (rows : list KnowledgeDocument)
| successBody.

(** [NextResponse.json(body, { status })]. *)
Record Response : Type := {
  status : nat;
  body : Body }.

(** The array [supportedTypes] of the upload route. *)
Definition supportedTypes : list string :=
  ["application/pdf"; "text/plain"; "image/jpeg"; "image/png"; "image/webp"].

(** [10 * 1024 * 1024]. *)
Definition maxSize : Z := (10 * 1024 * 1024)%Z.

(** [getFileType(mimeType)]. *)
Definition getFileType (mimeType : string) : M string :=
  if mimeType =? "application/pdf" then ret "pdf"
  else if mimeType =? "text/plain" then ret "txt"
  else if prefix "image/" mimeType then ret "image"
  else throw (mkError ("Unsupported MIME type: " ++ mimeType)%string).

(** The summary of a stored document that the upload route answers with. *)
Definition summary (d : KnowledgeDocument) : UploadedDocument :=
  {| ud_id := id d;
     ud_title := title d;
     ud_filename := filename d;
     ud_fileType := fileType d;
     ud_uploadedAt := uploadedAt d |}.

Section Routes.

Variable P : Platform.

(** [POST /api/knowledge/upload]; [None] stands for a request whose
    [formData()] throws. *)
Definition uploadPOST (formData : option UploadForm) : M Response :=
  tryCatch
    (let! user_id := auth in
     if negb (JS.truthy user_id)
     then ret {| status := 401; body := errorBody "Unauthorized" |}
     else
       let! form := match formData with
                    | Some form => ret form
                    | None => throw (mkError "formData failed")
                    end in
       match form_file form with
       | None => ret {| status := 400; body := errorBody "No file provided" |}
       | Some file =>
           if negb (existsb (String.eqb (file_type file)) supportedTypes)
           then ret {| status := 400;
                       body := errorBody
                         "Unsupported file type. Please upload PDF, TXT, or image files." |}
           else if (file_size file >? maxSize)%Z
           then ret {| status := 400;
                       body := errorBody "File too large. Maximum size is 10MB." |}
           else
             let buffer := file_bytes file in
             let filename_ := file_name file in
             let! fileType_ := getFileType (file_type file) in
             let documentTitle := if JS.truthy (form_title form)
                                  then match form_title form with
                                       | Some t => t
                                       | None => ""
                                       end
                                  else filename_ in
             let! doc := addDocument P buffer filename_ fileType_ documentTitle
                           (match user_id with Some u => u | None => "" end) in
             ret {| status := 200; body := uploadedBody (summary doc) |}
       end)
    (fun _ => ret {| status := 500; body := errorBody "Failed to upload document" |}).

(** [GET /api/knowledge/documents]. *)
Definition documentsGET : M Response :=
  tryCatch
    (let! user_id := auth in
     if negb (JS.truthy user_id)
     then ret {| status := 401; body := errorBody "Unauthorized" |}
     else
       let! rows := getDocuments (match user_id with Some u => u | None => "" end) in
       ret {| status := 200; body := documentsBody rows |})
    (fun _ => ret {| status := 500; body := errorBody "Failed to fetch documents" |}).

(** [DELETE /api/knowledge/documents?id=...]; [idParam] is
    [searchParams.get('id')]. *)
Definition documentsDELETE (idParam : option string) : M Response :=
  tryCatch
    (let! user_id := auth in
     if negb (JS.truthy user_id)
     then ret {| status := 401; body := errorBody "Unauthorized" |}
     else if negb (JS.truthy idParam)
     then ret {| status := 400; body := errorBody "Document ID required" |}
     else
       deleteDocument (match idParam with Some i => i | None => "" end)
                      (match user_id with Some u => u | None => "" end) ;;
       ret {| status := 200; body := successBody |})
    (fun _ => ret {| status := 500; body := errorBody "Failed to delete document" |}).

(** The route that reprocesses a document; [None] stands for a request
    whose [json()] throws, [Some None] for a body without [documentId]. *)
Definition reprocessPOST (json : option (option string)) : M Response :=
  tryCatch
    (let! user_id := auth in
     if negb (JS.truthy user_id)
     then ret {| status := 401; body := errorBody "Unauthorized" |}
     else
       let! documentId := match json with
                          | Some documentId => ret documentId
                          | None => throw (mkError "json failed")
                          end in
       if negb (JS.truthy documentId)
       then ret {| status := 400; body := errorBody "Document ID required" |}
       else
         reprocessDocument P (match documentId with Some i => i | None => "" end)
                           (match user_id with Some u => u | None => "" end) ;;
         ret {| status := 200; body := successBody |})
    (fun _ => ret {| status := 500; body := errorBody "Failed to reprocess document" |}).

End Routes.

(* ================================================================== *)
(** * The upload component                                             *)
(* ================================================================== *)

(** The checks of [handleFileUpload] on [files[0]]: the text of the toast
    when the file is refused. *)
Definition clientCheck (file : File) : option string :=
  if negb (existsb (String.eqb (file_type file))
             ["application/pdf"; "text/plain"; "image/jpeg"; "image/png"; "image/webp"])
  then Some "Unsupported file type. Please upload PDF, TXT, or image files."
  else if (file_size file >? 10 * 1024 * 1024)%Z
  then Some "File too large. Maximum size is 10MB."
  else None.

(** The form data that [handleFileUpload] posts: the file, and its name as
    the title. *)
Definition clientForm (file : File) : UploadForm :=
  {| form_file := Some file; form_title := Some (file_name file) |}.

(** A small text file, as the browser sends it. *)
Definition helloFile : File :=
  {| file_name := "a.txt"; file_type := "text/plain";
     file_bytes := list_byte_of_string "hello" |}.

(** A picture of a kind the upload route does not list. *)
Definition gifFile : File :=
  {| file_name := "a.gif"; file_type := "image/gif";
     file_bytes := list_byte_of_string "GIF89a" |}.

(** No user is signed in: [session?.user?.id] is falsy. *)
Definition signedOut (w : World) : Prop :=
  exists u, session w = authSession u /\ JS.truthy u = false.

(** The route always answers, with one of the four status codes; it answers
    401 exactly when no user is signed in; and an answer 400 or 401 comes
    with the world as it was. *)
Definition guarded (route : M Response) (w : World) : Prop :=
  exists resp w',
    route w = (Ok resp, w') /\
    In (status resp) [200; 400; 401; 500] /\
    (status resp = 401 <-> signedOut w) /\
    (status resp = 400 \/ status resp = 401 -> w' = w).

(* ================================================================== *)
(** * The primitives on examples                                       *)
(* ================================================================== *)

Example trim_example : JS.trim (String "009" "  two words " ++ String "010" "") = "two words".
Proof. reflexivity. Qed.

Example toLowerCase_example : JS.toLowerCase "Image" = "image".
Proof. reflexivity. Qed.

Example uniq_example : JS.uniq [] ["Rules"; "Fees"; "Rules"] = ["Rules"; "Fees"].
Proof. reflexivity. Qed.

Example join_example : JS.join ", " ["a"; "b"; "c"] = "a, b, c".
Proof. reflexivity. Qed.

Example showNat_example : JS.showNat 2048 = "2048".
Proof. reflexivity. Qed.

Example Math_round_example :
  JS.Math_round ((87 # 100) * 100) = 87%Z /\
  JS.Math_round (5 # 2) = 3%Z /\
  JS.Math_round (- (5 # 2)) = (-2)%Z.
Proof. repeat split. Qed.

Example rem1_example : (JS.rem1 (- (7 # 2)) == - (1 # 2))%Q /\ (JS.rem1 (7 # 2) == 1 # 2)%Q.
Proof. split; reflexivity. Qed.

(** The wrap-around of the hash: the string whose base-31 polynomial is
    congruent to -2^31. *)
Example hashCodes_example :
  hashCodes (JS.charCodes "polygenelubricants") = (- 2 ^ 31)%Z /\
  poly31 (JS.charCodes "polygenelubricants") <> (- 2 ^ 31)%Z.
Proof. split; [vm_compute; reflexivity | vm_compute; discriminate]. Qed.

(** A text of 2500 characters with the parameters of the processor: three
    segments, the last one shorter. *)
Example specSplitText_example :
  map String.length
      (specSplitText {| chunkSize := 1000; chunkOverlap := 200;
                        separators := [". "; " "; ""] |}
                     (string_of_list_ascii (repeat "a"%char 2500)))
  = [1000; 1000; 900].
Proof. vm_compute. reflexivity. Qed.

(** A cut at a preferred separator: the sentence boundary wins over the
    size bound. *)
Example specSplitText_separator_example :
  specSplitText {| chunkSize := 12; chunkOverlap := 2; separators := [". "; " "; ""] |}
                "One. Two three four."
  = ["One. "; ". Two three "; "e four."].
Proof. vm_compute. reflexivity. Qed.

(* ================================================================== *)
(** * Lemmas on lists                                                  *)
(* ================================================================== *)

Lemma insertBy_perm {A : Type} (leb : A -> A -> bool) (x : A) (l : list A) :
  Permutation (insertBy leb x l) (x :: l).
Proof.
  induction l as [| y r IH]; simpl.
  - apply Permutation_refl.
  - destruct (leb x y).
    + apply Permutation_refl.
    + apply perm_trans with (y :: x :: r).
      * apply perm_skip, IH.
      * apply perm_swap.
Qed.

Lemma sortBy_perm {A : Type} (leb : A -> A -> bool) (l : list A) :
  Permutation (sortBy leb l) l.
Proof.
  induction l as [| x r IH]; simpl.
  - apply perm_nil.
  - apply perm_trans with (x :: sortBy leb r).
    + apply insertBy_perm.
    + apply perm_skip, IH.
Qed.

Lemma sortBy_In {A : Type} (leb : A -> A -> bool) (l : list A) (x : A) :
  In x (sortBy leb l) <-> In x l.
Proof.
  split; apply Permutation_in.
  - apply sortBy_perm.
  - apply Permutation_sym, sortBy_perm.
Qed.

Lemma sortBy_length {A : Type} (leb : A -> A -> bool) (l : list A) :
  length (sortBy leb l) = length l.
Proof. apply Permutation_length, sortBy_perm. Qed.

Lemma firstn_In {A : Type} (n : nat) (l : list A) (x : A) :
  In x (firstn n l) -> In x l.
Proof.
  revert l. induction n as [| n IH]; intros [| y l]; simpl; try tauto.
  intros [H | H]; [left; exact H | right; apply IH, H].
Qed.


Lemma mapi_length {A B : Type} (f : nat -> A -> B) (l : list A) (k : nat) :
  length (mapi f k l) = length l.
Proof. revert k. induction l as [| x r IH]; intros k; simpl; [| rewrite IH]; reflexivity. Qed.

(* ================================================================== *)
(** * The rolling hash                                                 *)
(* ================================================================== *)

Lemma toInt32_range (z : Z) : (- 2 ^ 31 <= JS.toInt32 z < 2 ^ 31)%Z.
Proof.
  unfold JS.toInt32.
  pose proof (Z.mod_pos_bound (z + 2 ^ 31) (2 ^ 32) ltac:(lia)). lia.
Qed.

Lemma toInt32_mod (z : Z) : (JS.toInt32 z mod 2 ^ 32 = z mod 2 ^ 32)%Z.
Proof.
  unfold JS.toInt32.
  rewrite Zminus_mod, Zmod_mod, <- Zminus_mod.
  f_equal. lia.
Qed.

Lemma toInt32_congr (a b : Z) :
  (a mod 2 ^ 32 = b mod 2 ^ 32)%Z -> JS.toInt32 a = JS.toInt32 b.
Proof.
  intros H. unfold JS.toInt32.
  rewrite (Zplus_mod a), (Zplus_mod b), H. reflexivity.
Qed.

(** One turn of the loop multiplies by 31, adds the code unit and wraps. *)
Lemma hashStep_spec (h c : Z) : hashStep h c = JS.toInt32 (31 * h + c).
Proof.
  unfold hashStep, JS.band, JS.shl. rewrite Z.land_diag.
  apply toInt32_congr.
  rewrite Z.shiftl_mul_pow2 by lia.
  rewrite Zplus_mod, Zminus_mod, toInt32_mod.
  rewrite (Zmult_mod (JS.toInt32 h)), toInt32_mod, <- Zmult_mod.
  rewrite <- Zminus_mod, <- Zplus_mod.
  f_equal. lia.
Qed.

(** Wrapping at every turn or once at the end gives the same hash. *)
Lemma hash_fold_wrap (cs : list Z) (h p : Z) :
  h = JS.toInt32 p ->
  fold_left hashStep cs h = JS.toInt32 (fold_left (fun a c => (31 * a + c)%Z) cs p).
Proof.
  revert h p. induction cs as [| c cs IH]; intros h p Hh; simpl.
  - exact Hh.
  - apply IH. subst h. rewrite hashStep_spec. apply toInt32_congr.
    rewrite (Zplus_mod (31 * JS.toInt32 p)), (Zmult_mod 31 (JS.toInt32 p)), toInt32_mod.
    rewrite <- Zmult_mod, <- Zplus_mod. reflexivity.
Qed.

Lemma hashCodes_poly31 (cs : list Z) : hashCodes cs = JS.toInt32 (poly31 cs).
Proof. unfold hashCodes, poly31. apply hash_fold_wrap. reflexivity. Qed.

(** The remainder of a division by 1 lies strictly between -1 and 1. *)
Lemma rem1_bounds (x : Q) : (- (1) < JS.rem1 x /\ JS.rem1 x < 1)%Q.
Proof.
  destruct x as [n d]. unfold JS.rem1, Qlt, Qminus, Qplus, Qopp, inject_Z. simpl.
  pose proof (Z.quot_rem' n (Zpos d)) as Hqr.
  pose proof (Pos2Z.is_pos d) as Hd.
  assert (Hrem : (Z.abs (Z.rem n (Zpos d)) < Zpos d)%Z).
  { pose proof (Z.rem_bound_abs n (Zpos d) ltac:(lia)). lia. }
  split; nia.
Qed.

Lemma createHashBasedEmbedding_length (P : Platform) (text : string) :
  length (createHashBasedEmbedding P text) = EMBEDDING_SIZE.
Proof. unfold createHashBasedEmbedding. rewrite length_map, length_seq. reflexivity. Qed.

Lemma createHashBasedEmbedding_nth (P : Platform) (text : string) (i : nat) :
  i < EMBEDDING_SIZE ->
  nth_error (createHashBasedEmbedding P text) i =
  Some (component P (hashCodes (JS.charCodes text) + Z.of_nat i)).
Proof.
  intros Hi. unfold createHashBasedEmbedding.
  rewrite nth_error_map, nth_error_seq.
  destruct (Nat.ltb_spec i EMBEDDING_SIZE); [reflexivity | lia].
Qed.


(* ================================================================== *)
(** * The embedder                                                     *)
(* ================================================================== *)

Lemma sameStore_refl (w : World) : sameStore w w.
Proof. split; reflexivity. Qed.

Lemma sameStore_trans (w1 w2 w3 : World) :
  sameStore w1 w2 -> sameStore w2 w3 -> sameStore w1 w3.
Proof. intros [H1 H2] [H3 H4]. split; congruence. Qed.

Lemma sameStore_setHf (w : World) (s : list (option FeatureExtractionOutput)) :
  sameStore w (setHf w s).
Proof. split; reflexivity. Qed.

Lemma conforming_tl (s : list (option FeatureExtractionOutput)) :
  conforming s -> conforming (tl s).
Proof. intros H. destruct s; simpl; [exact H | inversion H; assumption]. Qed.

Lemma allRejected_tl (n : nat) (s : list (option FeatureExtractionOutput)) :
  allRejected (S n) s -> allRejected n (tl s).
Proof.
  intros H o Ho. apply H. destruct s as [| x s]; simpl in *.
  - destruct n; simpl in Ho; contradiction.
  - right. exact Ho.
Qed.

(** A call of the backend consumes one entry of the script and touches
    nothing else. *)
Lemma featureExtraction_run (model inputs : string) (w : World) :
  exists r,
    featureExtraction model inputs w = (r, setHf w (tl (hf w))) /\
    (forall out, r = Ok out -> hd_error (hf w) = Some (Some out)) /\
    (allRejected 1 (hf w) -> exists e, r = Throw e).
Proof.
  unfold featureExtraction. destruct w as [s a d]. simpl.
  destruct s as [| [out |] rest]; simpl.
  - eexists. split; [reflexivity |]. split; [discriminate | eauto].
  - eexists. split; [reflexivity |]. split.
    + intros o [= ->]. reflexivity.
    + intros H. specialize (H (Some out) (or_introl eq_refl)). discriminate.
  - eexists. split; [reflexivity |]. split; [discriminate | eauto].
Qed.

Lemma conforming_hd (s : list (option FeatureExtractionOutput)) (out : FeatureExtractionOutput) :
  conforming s -> hd_error s = Some (Some out) -> length (flatEmbedding out) = EMBEDDING_SIZE.
Proof.
  intros H Hhd. destruct s as [| x s]; [discriminate |].
  simpl in Hhd. injection Hhd as ->. inversion H. assumption.
Qed.

Lemma allRejected_S (n : nat) (s : list (option FeatureExtractionOutput)) :
  allRejected (S n) s -> allRejected 1 s.
Proof.
  intros H o Ho. apply H. destruct s as [| x s]; simpl in *; [contradiction |].
  destruct Ho as [Ho | []]. left. exact Ho.
Qed.

(** The loop of [embedQuery]: its result, the world it leaves, and what it
    does when the backend conforms or when every call is rejected. *)
Lemma embedQueryLoop_run (models : list string) (query : string) (w : World) :
  exists r w',
    embedQueryLoop models query w = (r, w') /\
    sameStore w w' /\
    (conforming (hf w) -> forall v, r = Ok v -> length v = EMBEDDING_SIZE) /\
    (allRejected (length models) (hf w) -> exists e, r = Throw e).
Proof.
  revert w. induction models as [| model rest IH]; intros w; simpl.
  - exists (Throw (mkError "All query embedding models failed")), w.
    split; [reflexivity |]. split; [apply sameStore_refl |].
    split; [discriminate | eauto].
  - destruct (featureExtraction_run model query w) as (r & Hr & Hok & Hrej).
    destruct r as [out | e].
    + exists (Ok (flatEmbedding out)), (setHf w (tl (hf w))).
      split.
      { unfold tryCatch, bind, ret. rewrite Hr. reflexivity. }
      split; [apply sameStore_setHf |]. split.
      * intros Hc v [= <-]. apply (conforming_hd (hf w)); auto.
      * intros H. destruct (Hrej (allRejected_S _ _ H)) as [e He]. discriminate.
    + destruct (IH (setHf w (tl (hf w)))) as (r' & w' & Hrun & Hs & Hc & Hrej').
      exists r', w'. split.
      { unfold tryCatch, bind, ret. rewrite Hr. exact Hrun. }
      split; [apply sameStore_trans with (setHf w (tl (hf w))); [apply sameStore_setHf | exact Hs] |].
      split.
      * intros Hconf. apply Hc. simpl. apply conforming_tl, Hconf.
      * intros H. apply Hrej'. simpl. apply allRejected_tl, H.
Qed.

(** [embedQuery] always returns; it returns the fallback embedding when
    every model is rejected. *)
Lemma embedQuery_run (P : Platform) (query : string) (w : World) :
  exists v w',
    embedQuery P query w = (Ok v, w') /\
    sameStore w w' /\
    (conforming (hf w) -> length v = EMBEDDING_SIZE) /\
    (allRejected 3 (hf w) -> v = createHashBasedEmbedding P query).
Proof.
  destruct (embedQueryLoop_run MODELS query w) as (r & w' & Hrun & Hs & Hc & Hrej).
  unfold embedQuery, tryCatch. rewrite Hrun. destruct r as [v | e].
  - exists v, w'. split; [reflexivity |]. split; [exact Hs |]. split.
    + intros H. apply (Hc H v eq_refl).
    + intros H. destruct (Hrej H) as [e He]. discriminate.
  - exists (createHashBasedEmbedding P query), w'. split; [reflexivity |].
    split; [exact Hs |]. split; [| reflexivity].
    intros _. apply createHashBasedEmbedding_length.
Qed.

(** The loop of [createChunks] over the models. *)
Lemma featureExtractionLoop_run (models : list string) (inputs : string) (w : World) :
  exists found w',
    featureExtractionLoop models inputs w = (Ok found, w') /\
    sameStore w w' /\
    (conforming (hf w) ->
       conforming (hf w') /\
       forall out, found = Some out -> length (flatEmbedding out) = EMBEDDING_SIZE) /\
    (hf w = [] -> hf w' = [] /\ found = None).
Proof.
  revert w. induction models as [| model rest IH]; intros w; simpl.
  - exists None, w. split; [reflexivity |]. split; [apply sameStore_refl |].
    split; [intros H; split; [exact H | discriminate] | auto].
  - destruct (featureExtraction_run model inputs w) as (r & Hr & Hok & Hrej).
    destruct r as [out | e].
    + exists (Some out), (setHf w (tl (hf w))). split.
      { unfold tryCatch, bind, ret. rewrite Hr. reflexivity. }
      split; [apply sameStore_setHf |]. split.
      * intros Hc. split; [apply conforming_tl, Hc |].
        intros o [= <-]. apply (conforming_hd (hf w)); auto.
      * intros Hnil. specialize (Hok out eq_refl). rewrite Hnil in Hok. discriminate.
    + destruct (IH (setHf w (tl (hf w)))) as (found & w' & Hrun & Hs & Hc & Hnil).
      exists found, w'. split.
      { unfold tryCatch, bind, ret. rewrite Hr. exact Hrun. }
      split; [apply sameStore_trans with (setHf w (tl (hf w))); [apply sameStore_setHf | exact Hs] |].
      split.
      * intros Hconf. apply Hc. simpl. apply conforming_tl, Hconf.
      * intros H. apply Hnil. simpl. rewrite H. reflexivity.
Qed.

(** One chunk is always produced: with the vector of the backend, or with
    the fallback embedding of its own text and the flag [fallback]. *)
Lemma embedChunk_run (P : Platform) (name : string) (total i : nat) (text : string) (w : World) :
  exists c w',
    embedChunk P name total i text w = (Ok c, w') /\
    sameStore w w' /\
    content c = text /\ chunkIndex c = i /\
    metadata c = chunkMetadata name text total (md_fallback (metadata c)) /\
    (md_fallback (metadata c) = true -> isFallback P c) /\
    (conforming (hf w) -> conforming (hf w') /\ length (embedding c) = EMBEDDING_SIZE) /\
    (hf w = [] -> hf w' = [] /\ isFallback P c).
Proof.
  destruct (featureExtractionLoop_run MODELS text w) as (found & w' & Hrun & Hs & Hc & Hnil).
  unfold embedChunk, tryCatch, bind. rewrite Hrun.
  destruct found as [out |]; simpl.
  - eexists; exists w'. split; [reflexivity |]. simpl.
    split; [exact Hs |]. repeat (split; [reflexivity |]).
    split; [discriminate |]. split.
    + intros H. destruct (Hc H) as [H1 H2]. split; [exact H1 | apply H2; reflexivity].
    + intros H. destruct (Hnil H) as [_ H2]. discriminate.
  - eexists; exists w'. split; [reflexivity |]. simpl.
    split; [exact Hs |]. repeat (split; [reflexivity |]).
    split; [intros _; split; reflexivity |]. split.
    + intros H. split; [apply (Hc H) | exact (createHashBasedEmbedding_length P text)].
    + intros H. split; [apply (Hnil H) | split; reflexivity].
Qed.

Lemma createChunksLoop_run (P : Platform) (name : string) (total : nat)
  (textChunks : list string) (i : nat) (w : World) :
  exists cs w',
    createChunksLoop P name total i textChunks w = (Ok cs, w') /\
    sameStore w w' /\
    map content cs = textChunks /\
    map chunkIndex cs = seq i (length textChunks) /\
    Forall (fun c => md_totalChunks (metadata c) = total) cs /\
    Forall (fun c => md_fallback (metadata c) = true -> isFallback P c) cs /\
    (conforming (hf w) -> Forall (fun c => length (embedding c) = EMBEDDING_SIZE) cs) /\
    (hf w = [] -> Forall (isFallback P) cs).
Proof.
  revert i w. induction textChunks as [| text rest IH]; intros i w; simpl.
  - exists [], w. unfold ret. split; [reflexivity |]. split; [apply sameStore_refl |].
    repeat split; auto.
  - destruct (embedChunk_run P name total i text w)
      as (c & w1 & Hrun & Hs & Hcont & Hidx & Hmd & Hfb & Hconf & Hnil).
    destruct (IH (S i) w1) as (cs & w2 & Hrun2 & Hs2 & Hmap & Hseq & Htot & Hfbs & Hconf2 & Hnil2).
    exists (c :: cs), w2. split.
    { unfold bind, ret. rewrite Hrun, Hrun2. reflexivity. }
    split; [apply sameStore_trans with w1; assumption |].
    split; [simpl; congruence |].
    split; [simpl; congruence |].
    split; [constructor; [rewrite Hmd; reflexivity | exact Htot] |].
    split; [constructor; assumption |].
    split.
    + intros H. destruct (Hconf H) as [H1 H2]. constructor; [exact H2 | apply Hconf2, H1].
    + intros H. destruct (Hnil H) as [H1 H2]. constructor; [exact H2 | apply Hnil2, H1].
Qed.

(** [createChunks] always returns one chunk per segment of the splitter. *)
Lemma createChunks_run (P : Platform) (text name : string) (w : World) :
  exists cs w',
    createChunks P text name w = (Ok cs, w') /\
    sameStore w w' /\
    map content cs = textSplitter P text /\
    map chunkIndex cs = seq 0 (length (textSplitter P text)) /\
    Forall (fun c => md_totalChunks (metadata c) = length (textSplitter P text)) cs /\
    Forall (fun c => md_fallback (metadata c) = true -> isFallback P c) cs /\
    (conforming (hf w) -> Forall (fun c => length (embedding c) = EMBEDDING_SIZE) cs) /\
    (hf w = [] -> Forall (isFallback P) cs).
Proof. unfold createChunks. apply createChunksLoop_run. Qed.

(** C4.  The fallback embedding is a function of the text alone: no world is
    read or changed, and two calls of [embedQuery] made while the backend is
    down return it, whatever the rest of the world.  It always has 384
    components.  Its hash is the polynomial of the code units in base 31
    wrapped to a signed 32-bit integer, so it lies between -2^31 and
    2^31 - 1, and component [i] is [sin(hash + i) * 43758.5453] reduced
    modulo 1, which lies strictly between -1 and 1; two texts with the same
    hash therefore get the same vector. *)
Theorem createHashBasedEmbedding_deterministic (P : Platform) (x : string) :
  length (createHashBasedEmbedding P x) = 384 /\
  hashCodes (JS.charCodes x) = JS.toInt32 (poly31 (JS.charCodes x)) /\
  (- 2 ^ 31 <= hashCodes (JS.charCodes x) < 2 ^ 31)%Z /\
  (forall i : nat, i < 384 ->
     nth_error (createHashBasedEmbedding P x) i =
       Some (JS.rem1 (Math_sin P (hashCodes (JS.charCodes x) + Z.of_nat i) * SCALE)%Q)) /\
  Forall (fun c => (- (1) < c /\ c < 1)%Q) (createHashBasedEmbedding P x) /\
  (forall y : string,
     hashCodes (JS.charCodes y) = hashCodes (JS.charCodes x) ->
     createHashBasedEmbedding P y = createHashBasedEmbedding P x) /\
  (forall w1 w2 : World,
     hf w1 = [] -> hf w2 = [] ->
     fst (embedQuery P x w1) = Ok (createHashBasedEmbedding P x) /\
     fst (embedQuery P x w2) = fst (embedQuery P x w1)).
Proof.
  split; [| split; [| split; [| split; [| split; [| split]]]]].
  - apply createHashBasedEmbedding_length.
  - apply hashCodes_poly31.
  - rewrite hashCodes_poly31. apply toInt32_range.
  - intros i Hi. apply createHashBasedEmbedding_nth. exact Hi.
  - unfold createHashBasedEmbedding. apply Forall_map, Forall_forall.
    intros i _. apply rem1_bounds.
  - intros y Hy. unfold createHashBasedEmbedding. rewrite Hy. reflexivity.
  - intros w1 w2 H1 H2.
    assert (Hdown : forall w, hf w = [] ->
              fst (embedQuery P x w) = Ok (createHashBasedEmbedding P x)).
    { intros w Hw. destruct (embedQuery_run P x w) as (v & w' & Hrun & _ & _ & Hrej).
      rewrite Hrun. simpl. f_equal. apply Hrej. rewrite Hw. intros o []. }
    rewrite (Hdown w1 H1), (Hdown w2 H2). split; reflexivity.
Qed.

(** The hash of "hello" and the first component of its vector on the demo
    platform. *)
Lemma createHashBasedEmbedding_deterministic_witness :
  hashCodes (JS.charCodes "hello") = 99162322%Z /\
  nth_error (createHashBasedEmbedding (demoPlatform 384) "hello") 0 =
    Some (JS.rem1 (Math_sin (demoPlatform 384) (99162322 + 0) * SCALE)%Q).
Proof.
  split.
  - vm_compute. reflexivity.
  - exact (proj1 (proj2 (proj2 (proj2
             (createHashBasedEmbedding_deterministic (demoPlatform 384) "hello")))) 0
             ltac:(lia)).
Defined.



(* ================================================================== *)
(** * The retriever                                                    *)
(* ================================================================== *)

Lemma innerJoin_In (d : Db) (c : ChunkRow) (r : KnowledgeDocument) :
  In (c, r) (innerJoin d) <->
  In c (chunks d) /\ In r (documents d) /\ row_documentId c = id r.
Proof.
  unfold innerJoin. rewrite in_flat_map. split.
  - intros (c' & Hc & Hin). apply in_map_iff in Hin.
    destruct Hin as (r' & Heq & Hr). injection Heq as -> ->.
    apply filter_In in Hr. destruct Hr as [Hr He].
    apply String.eqb_eq in He. auto.
  - intros (Hc & Hr & He). exists c. split; [exact Hc |].
    apply in_map_iff. exists r. split; [reflexivity |].
    apply filter_In. split; [exact Hr | apply String.eqb_eq, He].
Qed.

Lemma above_threshold (s thr : Q) : negb (Qle_bool s thr) = true <-> (thr < s)%Q.
Proof.
  rewrite negb_true_iff. split.
  - intros H. apply Qnot_le_lt. intros Hle. apply Qle_bool_iff in Hle. congruence.
  - intros H. destruct (Qle_bool s thr) eqn:E; [| reflexivity].
    apply Qle_bool_iff in E. exfalso. apply (Qlt_not_le _ _ H E).
Qed.

(** With a non-empty owner the [where] clause is both conditions. *)
Lemma whereConditions_owner (P : Platform) (qe : list Q) (thr : Q) (owner : string)
  (row : ChunkRow * KnowledgeDocument) :
  owner <> "" ->
  and_ (whereConditions P qe thr (Some owner)) row = true <->
  (thr < similarityTo P qe (fst row))%Q /\ userId (snd row) = owner.
Proof.
  intros Hne. unfold whereConditions, and_, JS.truthy.
  destruct (owner =? "") eqn:E; [apply String.eqb_eq in E; contradiction |].
  simpl. rewrite andb_true_r, andb_true_iff, above_threshold, String.eqb_eq. tauto.
Qed.

(** Without a truthy owner the [where] clause is the similarity condition
    alone. *)
Lemma whereConditions_no_owner (P : Platform) (qe : list Q) (thr : Q) (u : option string)
  (row : ChunkRow * KnowledgeDocument) :
  JS.truthy u = false ->
  and_ (whereConditions P qe thr u) row = negb (Qle_bool (similarityTo P qe (fst row)) thr).
Proof.
  intros Hu. unfold whereConditions, and_. rewrite Hu. simpl. apply andb_true_r.
Qed.

Lemma rebuild_results (l : list SearchResult) :
  map (fun r => {| chunk := chunk r; document := document r; similarity := similarity r |}) l = l.
Proof.
  induction l as [| [c d s] l IH]; simpl; [| rewrite IH]; reflexivity.
Qed.

(** What [searchSimilar] computes: the query is embedded, which leaves the
    store alone, and the rows of the join that pass the [where] clause are
    ordered and truncated; a negative limit makes it throw. *)
Lemma searchSimilar_run (P : Platform) (query : string) (limit : Z) (thr : Q)
  (u : option string) (w : World) :
  exists qe w1,
    embedQuery P query w = (Ok qe, w1) /\ sameStore w w1 /\
    searchSimilar P query limit thr u w =
      if (limit <? 0)%Z
      then (Throw (mkError "Failed to search knowledge base"), w1)
      else (Ok (firstn (Z.to_nat limit)
                  (sortBy bySimilarityDesc
                     (map (selectColumns P qe)
                        (filter (and_ (whereConditions P qe thr u)) (innerJoin (db w)))))),
            w1).
Proof.
  destruct (embedQuery_run P query w) as (qe & w1 & Hrun & Hs & _).
  exists qe, w1. split; [exact Hrun |]. split; [exact Hs |].
  unfold searchSimilar, tryCatch, bind. rewrite Hrun.
  unfold selectSimilar, bind, getDb. destruct Hs as [Hdb _]. rewrite Hdb.
  destruct (limit <? 0)%Z; unfold throw, ret; [reflexivity |].
  rewrite rebuild_results. reflexivity.
Qed.




(** C10.  The owner of [searchSimilar] is optional.  When it is omitted the
    [where] clause is the similarity condition alone (a second condition is
    pushed only for a non-empty owner), and the result is the
    ordered, truncated list of all joined rows above the threshold: every
    stored chunk above the threshold is returned with its document, whoever
    owns it, as long as the limit does not cut it off. *)
Theorem searchSimilar_without_owner (P : Platform) (query : string) (limit : Z) (thr : Q)
  (w : World) :
  (forall qe,
     length (whereConditions P qe thr None) = 1 /\
     (forall owner, owner <> "" -> length (whereConditions P qe thr (Some owner)) = 2) /\
     (forall row,
        and_ (whereConditions P qe thr None) row
          = negb (Qle_bool (similarityTo P qe (fst row)) thr))) /\
  exists qe w1,
    embedQuery P query w = (Ok qe, w1) /\
    ((0 <= limit)%Z ->
     exists rs,
       searchSimilar P query limit thr None w = (Ok rs, w1) /\
       forall c d,
         In c (chunks (db w)) -> In d (documents (db w)) -> row_documentId c = id d ->
         (thr < similarityTo P qe c)%Q ->
         (Z.of_nat (length (innerJoin (db w))) <= limit)%Z ->
         In {| chunk := c; document := d; similarity := similarityTo P qe c |} rs).
Proof.
  split.
  - intros qe. split; [reflexivity |]. split.
    + intros owner Hne. unfold whereConditions, JS.truthy.
      destruct (owner =? "") eqn:E; [apply String.eqb_eq in E; contradiction | reflexivity].
    + intros row. apply whereConditions_no_owner. reflexivity.
  - destruct (searchSimilar_run P query limit thr None w) as (qe & w1 & Hq & _ & Hrun).
    exists qe, w1. split; [exact Hq |]. intros Hl.
    rewrite Hrun. destruct (Z.ltb_spec limit 0); [lia |].
    eexists. split; [reflexivity |].
    intros c d Hc Hd Hid Hsim Hlen.
    rewrite firstn_all2.
    + apply sortBy_In, in_map_iff. exists (c, d). split; [reflexivity |].
      apply filter_In. split; [apply innerJoin_In; auto |].
      rewrite whereConditions_no_owner by reflexivity. apply above_threshold, Hsim.
    + rewrite sortBy_length, length_map.
      pose proof (filter_length_le (and_ (whereConditions P qe thr None)) (innerJoin (db w))).
      lia.
Qed.

(** A search without owner returns the chunk of the user [u2]. *)
Lemma searchSimilar_without_owner_witness :
  exists rs w',
    searchSimilar (demoPlatform 384) "hello" 5 (2 # 10) None (u2World None) = (Ok rs, w') /\
    exists r, In r rs /\ userId (document r) = "u2".
Proof.
  destruct (proj2 (searchSimilar_without_owner (demoPlatform 384) "hello" 5 (2 # 10) (u2World None)))
    as (qe & w1 & Hq & Hrun).
  destruct (Hrun ltac:(lia)) as (rs & Hrs & Hin).
  exists rs, w1. split; [exact Hrs |].
  assert (Hqe : qe = createHashBasedEmbedding (demoPlatform 384) "hello").
  { destruct (embedQuery_run (demoPlatform 384) "hello" (u2World None))
      as (v & w' & Hv & _ & _ & Hrej).
    rewrite Hq in Hv. injection Hv as <- _. apply Hrej.
    intros o Ho. simpl in Ho. contradiction. }
  subst qe.
  eexists. split.
  - apply (Hin u2Chunk u2Document).
    + left. reflexivity.
    + left. reflexivity.
    + reflexivity.
    + vm_compute. reflexivity.
    + vm_compute. discriminate.
  - reflexivity.
Defined.

(* ================================================================== *)
(** * The search tool                                                  *)
(* ================================================================== *)




(* ================================================================== *)
(** * The document store: deletion                                     *)
(* ================================================================== *)

Lemma filter_all {A : Type} (f : A -> bool) (l : list A) :
  (forall x, In x l -> f x = true) -> filter f l = l.
Proof.
  induction l as [| x l IH]; intros H; simpl; [reflexivity |].
  rewrite (H x (or_introl eq_refl)), IH; [reflexivity |].
  intros y Hy. apply H. right. exact Hy.
Qed.

Lemma filter_none {A : Type} (f : A -> bool) (l : list A) :
  (forall x, In x l -> f x = false) -> filter f l = [].
Proof.
  induction l as [| x l IH]; intros H; simpl; [reflexivity |].
  rewrite (H x (or_introl eq_refl)). apply IH.
  intros y Hy. apply H. right. exact Hy.
Qed.

(** The condition of the [DELETE] of [deleteDocument]. *)
Lemma ownedBy_iff (documentId owner : string) (r : KnowledgeDocument) :
  ownedBy documentId owner r = true <-> id r = documentId /\ userId r = owner.
Proof. unfold ownedBy. rewrite andb_true_iff, !String.eqb_eq. tauto. Qed.

Lemma referenced_iff (l : list KnowledgeDocument) (c : ChunkRow) :
  existsb (fun r => id r =? row_documentId c) l = true <->
  exists r, In r l /\ id r = row_documentId c.
Proof.
  rewrite existsb_exists. split; intros (r & Hr & He); exists r;
    (split; [exact Hr | apply String.eqb_eq; exact He]).
Qed.

Lemma deleteDocument_run (documentId owner : string) (w : World) :
  deleteDocument documentId owner w =
    (Ok tt, setDb w (afterDelete (ownedBy documentId owner) (db w))).
Proof. reflexivity. Qed.

Lemma afterDelete_documents (cond : KnowledgeDocument -> bool) (d : Db) (r : KnowledgeDocument) :
  In r (documents (afterDelete cond d)) <-> In r (documents d) /\ cond r = false.
Proof. unfold afterDelete. simpl. rewrite filter_In, negb_true_iff. tauto. Qed.

Lemma afterDelete_chunks (cond : KnowledgeDocument -> bool) (d : Db) (c : ChunkRow) :
  In c (chunks (afterDelete cond d)) <->
  In c (chunks d) /\
  ~ (exists r, In r (documents d) /\ cond r = true /\ id r = row_documentId c).
Proof.
  unfold afterDelete. simpl. rewrite filter_In, negb_true_iff.
  assert (Hex : existsb (fun r => id r =? row_documentId c) (filter cond (documents d)) = true
                <-> exists r, In r (documents d) /\ cond r = true /\ id r = row_documentId c).
  { rewrite referenced_iff. split.
    - intros (r & Hr & He). apply filter_In in Hr. exists r. tauto.
    - intros (r & Hr & Hc & He). exists r. split; [apply filter_In; tauto | exact He]. }
  destruct (existsb _ _).
  - split; [intros [_ H]; discriminate |].
    intros [_ H]. exfalso. apply H, Hex. reflexivity.
  - split; intros [H _]; (split; [exact H |]); [| reflexivity].
    intros H'. apply Hex in H'. discriminate.
Qed.




(* ================================================================== *)
(** * The document store: ingestion                                    *)
(* ================================================================== *)

(** The content extractor reads its collaborators and leaves the world
    alone. *)
Lemma extractContent_run (P : Platform) (buffer : Buffer) (kind : string) (w : World) :
  exists r, extractContent P buffer kind w = (r, w).
Proof.
  unfold extractContent, processPDF, processImage, ret, throw.
  repeat match goal with
         | |- context [if ?b then _ else _] => destruct b
         | |- context [match ?x with _ => _ end] => destruct x
         end; eexists; reflexivity.
Qed.

(** [processDocument] fails exactly when the extraction fails; otherwise it
    returns the extracted text with the chunks of [createChunks]. *)
Lemma processDocument_run (P : Platform) (buffer : Buffer) (name kind : string) (w : World) :
  (exists e,
     extractContent P buffer kind w = (Throw e, w) /\
     processDocument P buffer name kind w = (Throw e, w)) \/
  (exists text cs w1,
     extractContent P buffer kind w = (Ok text, w) /\
     createChunks P text name w = (Ok cs, w1) /\
     sameStore w w1 /\
     processDocument P buffer name kind w =
       (Ok {| pd_content := text;
              pd_chunks := cs;
              pd_metadata := {| pm_filename := name; pm_fileType := kind;
                                pm_fileSize := length buffer;
                                pm_totalChunks := length cs |} |}, w1)).
Proof.
  destruct (extractContent_run P buffer kind w) as ([text | e] & Hx).
  - right. destruct (createChunks_run P text name w) as (cs & w1 & Hc & Hs & _).
    exists text, cs, w1. repeat split; try assumption; try apply Hs.
    unfold processDocument, bind, ret. rewrite Hx, Hc. reflexivity.
  - left. exists e. split; [exact Hx |].
    unfold processDocument, bind. rewrite Hx. reflexivity.
Qed.

Lemma processDocument_sameStore (P : Platform) (buffer : Buffer) (name kind : string)
  (w w1 : World) (r : Result ProcessedDocument) :
  processDocument P buffer name kind w = (r, w1) -> sameStore w w1.
Proof.
  intros H. destruct (processDocument_run P buffer name kind w)
    as [(e & _ & Hp) | (text & cs & w2 & _ & _ & Hs & Hp)];
    rewrite Hp in H; injection H as <- <-; [apply sameStore_refl | exact Hs].
Qed.

Lemma insertDocumentChunk_ok (P : Platform) (row : ChunkRow) (w : World) :
  length (row_embedding row) = vectorDim P ->
  (exists r, In r (documents (db w)) /\ id r = row_documentId row) ->
  exists w', insertDocumentChunk P row w = (Ok tt, w') /\ appended w w' [row].
Proof.
  intros Hdim Hfk. unfold insertDocumentChunk, bind, getDb, putDb, throw.
  apply Nat.eqb_eq in Hdim. rewrite Hdim. simpl.
  apply referenced_iff in Hfk. rewrite Hfk. simpl.
  eexists. split; [reflexivity |]. repeat split.
Qed.

Lemma insertDocumentChunk_dim (P : Platform) (row : ChunkRow) (w : World) :
  length (row_embedding row) <> vectorDim P ->
  insertDocumentChunk P row w =
    (Throw (mkError "expected a vector of the declared dimension"), w).
Proof.
  intros Hdim. unfold insertDocumentChunk, bind, getDb, putDb, throw.
  apply Nat.eqb_neq in Hdim. rewrite Hdim. reflexivity.
Qed.

Lemma appended_nil (w : World) : appended w w [].
Proof. unfold appended. rewrite app_nil_r. repeat split. Qed.

Lemma appended_trans (w1 w2 w3 : World) (r1 r2 : list ChunkRow) :
  appended w1 w2 r1 -> appended w2 w3 r2 -> appended w1 w3 (r1 ++ r2).
Proof.
  intros (H1 & H2 & H3 & H4 & H5) (K1 & K2 & K3 & K4 & K5).
  unfold appended. rewrite K1, K2, K3, K4, K5, H4, app_assoc. repeat split; assumption.
Qed.

(** The loop of inserts when every vector is accepted: all rows are there. *)
Lemma insertChunks_ok (P : Platform) (documentId : string) (cs : list DocumentChunk) (w : World) :
  (exists r, In r (documents (db w)) /\ id r = documentId) ->
  Forall (accepted P) cs ->
  exists w', insertChunks P documentId cs w = (Ok tt, w') /\
             appended w w' (map (chunkValues documentId) cs).
Proof.
  revert w. induction cs as [| c cs IH]; intros w Hfk Hall.
  - exists w. split; [reflexivity | apply appended_nil].
  - inversion Hall as [| c' cs' Hc Hcs]; subst.
    destruct (insertDocumentChunk_ok P (chunkValues documentId c) w Hc Hfk) as (w1 & Hrun & Happ).
    destruct (IH w1) as (w2 & Hrun2 & Happ2); [| exact Hcs |].
    { destruct Happ as (_ & _ & Hd & _). rewrite Hd. exact Hfk. }
    exists w2. split.
    + unfold insertChunks in *. simpl. unfold bind. rewrite Hrun. exact Hrun2.
    + apply (appended_trans w w1 w2 [chunkValues documentId c]); assumption.
Qed.

(** The loop of inserts when a vector is refused: the loop throws there and
    the rows inserted before stay. *)
Lemma insertChunks_fail (P : Platform) (documentId : string) (pre post : list DocumentChunk)
  (c : DocumentChunk) (w : World) :
  (exists r, In r (documents (db w)) /\ id r = documentId) ->
  Forall (accepted P) pre -> ~ accepted P c ->
  exists w',
    insertChunks P documentId (pre ++ c :: post) w =
      (Throw (mkError "expected a vector of the declared dimension"), w') /\
    appended w w' (map (chunkValues documentId) pre).
Proof.
  revert w. induction pre as [| p pre IH]; intros w Hfk Hall Hc.
  - exists w. split; [| apply appended_nil].
    unfold insertChunks. simpl. unfold bind.
    rewrite (insertDocumentChunk_dim P (chunkValues documentId c) w Hc). reflexivity.
  - inversion Hall as [| p' pre' Hp Hpre]; subst.
    destruct (insertDocumentChunk_ok P (chunkValues documentId p) w Hp Hfk) as (w1 & Hrun & Happ).
    destruct (IH w1) as (w2 & Hrun2 & Happ2); [| exact Hpre | exact Hc |].
    { destruct Happ as (_ & _ & Hd & _). rewrite Hd. exact Hfk. }
    exists w2. split.
    + unfold insertChunks in *. simpl. unfold bind. rewrite Hrun. exact Hrun2.
    + apply (appended_trans w w1 w2 [chunkValues documentId p]); assumption.
Qed.

(** The insert of the document row when the generated id is new. *)
Lemma insertKnowledgeDocument_ok (P : Platform) (t f k text : string) (size : nat) (u : string)
  (w : World) :
  (forall d, In d (documents (db w)) -> id d <> gen_random_uuid P (serial (db w))) ->
  insertKnowledgeDocument P t f k text size u w =
    (Ok {| id := gen_random_uuid P (serial (db w)); title := t; filename := f; fileType := k;
           doc_content := Some text; fileSize := Some size; uploadedAt := serial (db w);
           userId := u |},
     setDb w {| documents := documents (db w)
                  ++ [ {| id := gen_random_uuid P (serial (db w)); title := t; filename := f;
                          fileType := k; doc_content := Some text; fileSize := Some size;
                          uploadedAt := serial (db w); userId := u |} ];
                chunks := chunks (db w);
                serial := S (serial (db w)) |}).
Proof.
  intros Hfresh. unfold insertKnowledgeDocument, bind, getDb, putDb, ret, throw. simpl.
  destruct (existsb _ _) eqn:E; [| reflexivity].
  apply existsb_exists in E. destruct E as (d & Hd & He).
  apply String.eqb_eq in He. exfalso. apply (Hfresh d Hd He).
Qed.

(** C2 (amended).  [addDocument] writes without a transaction.  When the
    processing fails nothing is written.  Otherwise the document row is
    inserted first, then one row per chunk, in order: when every vector has
    the dimension of the column, the call returns the document and the
    document and all its chunks are stored; when the vector of a chunk is
    refused, the call throws, and the document row and the chunks inserted
    before the refused one stay stored. *)
Theorem addDocument_writes (P : Platform) (buffer : Buffer)
  (filename_ fileType_ title_ userId_ : string) (w : World) :
  exists r w1,
    processDocument P buffer filename_ fileType_ w = (r, w1) /\
    db w1 = db w /\
    match r with
    | Throw _ =>
        addDocument P buffer filename_ fileType_ title_ userId_ w =
          (Throw (mkError "Failed to add document to knowledge base"), w1)
    | Ok pd =>
        (forall d, In d (documents (db w)) -> id d <> gen_random_uuid P (serial (db w))) ->
        let doc := documentValues P title_ filename_ fileType_ userId_ pd (db w) in
        (Forall (accepted P) (pd_chunks pd) ->
           exists w',
             addDocument P buffer filename_ fileType_ title_ userId_ w = (Ok doc, w') /\
             documents (db w') = documents (db w) ++ [doc] /\
             chunks (db w') = chunks (db w) ++ map (chunkValues (id doc)) (pd_chunks pd)) /\
        (forall pre c post,
           pd_chunks pd = pre ++ c :: post -> Forall (accepted P) pre -> ~ accepted P c ->
           exists w',
             addDocument P buffer filename_ fileType_ title_ userId_ w =
               (Throw (mkError "Failed to add document to knowledge base"), w') /\
             documents (db w') = documents (db w) ++ [doc] /\
             chunks (db w') = chunks (db w) ++ map (chunkValues (id doc)) pre)
    end.
Proof.
  destruct (processDocument P buffer filename_ fileType_ w) as [r w1] eqn:Hp.
  exists r, w1. split; [reflexivity |].
  destruct (processDocument_sameStore _ _ _ _ _ _ _ Hp) as [Hdb _].
  split; [exact Hdb |].
  destruct r as [pd | e].
  - intros Hfresh doc.
    assert (Hins : insertKnowledgeDocument P title_ filename_ fileType_ (pd_content pd)
                     (pm_fileSize (pd_metadata pd)) userId_ w1 =
                   (Ok doc, setDb w1 {| documents := documents (db w) ++ [doc];
                                        chunks := chunks (db w);
                                        serial := S (serial (db w)) |})).
    { rewrite insertKnowledgeDocument_ok; rewrite Hdb; [reflexivity | exact Hfresh]. }
    assert (Hfk : exists r, In r (documents (db (setDb w1
                     {| documents := documents (db w) ++ [doc];
                        chunks := chunks (db w);
                        serial := S (serial (db w)) |}))) /\ id r = id doc).
    { exists doc. split; [simpl; apply in_or_app; right; left |]; reflexivity. }
    split.
    + intros Hall.
      destruct (insertChunks_ok P (id doc) (pd_chunks pd) _ Hfk Hall)
        as (w' & Hrun & (_ & _ & Hd & Hc & _)).
      exists w'. split; [| split; [exact Hd | exact Hc]].
      unfold addDocument, tryCatch, bind. rewrite Hp, Hins, Hrun. reflexivity.
    + intros pre c post Hsplit Hpre Hc.
      destruct (insertChunks_fail P (id doc) pre post c _ Hfk Hpre Hc)
        as (w' & Hrun & (_ & _ & Hd & Hcs & _)).
      exists w'. split; [| split; [exact Hd | exact Hcs]].
      unfold addDocument, tryCatch, bind. rewrite Hp, Hins, Hsplit, Hrun. reflexivity.
  - unfold addDocument, tryCatch, bind. rewrite Hp. reflexivity.
Qed.

(** The file "hello" is added while the backend is down: the document and
    its chunk, which carries the fallback embedding, are both stored. *)
Lemma addDocument_writes_witness :
  exists doc w',
    addDocument (demoPlatform 384) (list_byte_of_string "hello") "a.txt" "txt" "A" "u1"
      (offlineWorld "u1") = (Ok doc, w') /\
    documents (db w') = [doc] /\ length (chunks (db w')) = 1.
Proof.
  destruct (addDocument_writes (demoPlatform 384) (list_byte_of_string "hello")
              "a.txt" "txt" "A" "u1" (offlineWorld "u1")) as (r & w1 & Hp & _ & H).
  vm_compute in Hp. injection Hp as <- <-.
  destruct (H ltac:(intros d [])) as [Hok _].
  destruct (Hok ltac:(repeat constructor)) as (w' & Hrun & Hd & Hc).
  eexists; exists w'. split; [exact Hrun |]. split; [exact Hd |].
  rewrite Hc. reflexivity.
Defined.

(** C2 as stated fails.  The column has 1536 components; the first chunk of
    a file of 1200 characters gets a vector of the backend, the backend then
    goes down and the second chunk gets the fallback vector of 384
    components, which the column refuses: [addDocument] throws, and the
    document stays stored with one of its two chunks. *)
Lemma addDocument_partial_write :
  exists pd w1 w',
    processDocument (demoPlatform 1536) longFile "a.txt" "txt" oneAnswerWorld = (Ok pd, w1) /\
    length (pd_chunks pd) = 2 /\
    addDocument (demoPlatform 1536) longFile "a.txt" "txt" "A" "u1" oneAnswerWorld =
      (Throw (mkError "Failed to add document to knowledge base"), w') /\
    map id (documents (db w')) = ["doc-0"] /\
    map row_chunkIndex (chunks (db w')) = [0].
Proof.
  exists (match fst (processDocument (demoPlatform 1536) longFile "a.txt" "txt" oneAnswerWorld)
          with Ok pd => pd
             | Throw _ => {| pd_content := ""; pd_chunks := [];
                             pd_metadata := {| pm_filename := ""; pm_fileType := "";
                                               pm_fileSize := 0; pm_totalChunks := 0 |} |}
          end),
         (snd (processDocument (demoPlatform 1536) longFile "a.txt" "txt" oneAnswerWorld)),
         (snd (addDocument (demoPlatform 1536) longFile "a.txt" "txt" "A" "u1" oneAnswerWorld)).
  split; [vm_compute; reflexivity |].
  split; [vm_compute; reflexivity |].
  split; [vm_compute; reflexivity |].
  split; vm_compute; reflexivity.
Qed.

(* ================================================================== *)
(** * The document store: reprocessing                                 *)
(* ================================================================== *)






(* ================================================================== *)
(** * The chunker                                                      *)
(* ================================================================== *)






(* ================================================================== *)
(** * The content extractor                                            *)
(* ================================================================== *)

Lemma extractContent_pdf (P : Platform) (buffer : Buffer) (kind : string) (w : World) :
  JS.toLowerCase kind = "pdf" -> extractContent P buffer kind w = processPDF P buffer w.
Proof. intros H. unfold extractContent. rewrite H. reflexivity. Qed.

(** Once the text is extracted, [processDocument] returns it. *)
Lemma processDocument_content (P : Platform) (buffer : Buffer) (name kind text : string)
  (w : World) :
  extractContent P buffer kind w = (Ok text, w) ->
  exists pd w', processDocument P buffer name kind w = (Ok pd, w') /\ pd_content pd = text.
Proof.
  intros Hx. destruct (createChunks_run P text name w) as (cs & w1 & Hc & _).
  eexists; exists w1. split.
  - unfold processDocument, bind, ret. rewrite Hx, Hc. reflexivity.
  - reflexivity.
Qed.

(** C8.  For a file declared as a PDF in which pdf2json finds no text, the
    extraction does not fail: it returns a fixed message that ends with the
    size of the buffer in bytes, and so does [processDocument]; the same
    holds, with another message, when reading the parsed data throws.  For a
    declared kind that is none of pdf, txt and image, [processDocument] throws
    the error "Unsupported file type" and changes nothing. *)
Theorem processPDF_placeholder (P : Platform) (buffer : Buffer) (kind name : string)
  (w : World) :
  (forall pdfData text,
     JS.toLowerCase kind = "pdf" ->
     pdf2json P buffer = pdfParser_dataReady pdfData ->
     readPdfData P pdfData = Some text -> JS.trim text = "" ->
     processPDF P buffer w =
       (Ok ("[PDF Content] - This PDF appears to be empty or contains only images. File size: "
              ++ JS.showNat (length buffer) ++ " bytes.")%string, w) /\
     exists pd w',
       processDocument P buffer name kind w = (Ok pd, w') /\
       pd_content pd = emptyPdfMessage (length buffer)) /\
  (forall pdfData,
     JS.toLowerCase kind = "pdf" ->
     pdf2json P buffer = pdfParser_dataReady pdfData ->
     readPdfData P pdfData = None ->
     processPDF P buffer w =
       (Ok ("[PDF Content] - Could not extract text from this PDF. It may contain only images or be encrypted. File size: "
              ++ JS.showNat (length buffer) ++ " bytes.")%string, w) /\
     exists pd w',
       processDocument P buffer name kind w = (Ok pd, w') /\
       pd_content pd = unreadablePdfMessage (length buffer)) /\
  (JS.toLowerCase kind <> "pdf" -> JS.toLowerCase kind <> "txt" ->
   JS.toLowerCase kind <> "image" ->
   processDocument P buffer name kind w =
     (Throw (mkError ("Unsupported file type: " ++ kind)%string), w)).
Proof.
  split; [| split].
  - intros pdfData text Hkind Hev Hread Htrim.
    assert (Hpdf : processPDF P buffer w = (Ok (emptyPdfMessage (length buffer)), w)).
    { unfold processPDF. rewrite Hev, Hread, Htrim. reflexivity. }
    split; [exact Hpdf |].
    apply processDocument_content. rewrite extractContent_pdf by exact Hkind. exact Hpdf.
  - intros pdfData Hkind Hev Hread.
    assert (Hpdf : processPDF P buffer w = (Ok (unreadablePdfMessage (length buffer)), w)).
    { unfold processPDF. rewrite Hev, Hread. reflexivity. }
    split; [exact Hpdf |].
    apply processDocument_content. rewrite extractContent_pdf by exact Hkind. exact Hpdf.
  - intros H1 H2 H3. unfold processDocument, bind, extractContent.
    apply String.eqb_neq in H1, H2, H3. rewrite H1, H2, H3. reflexivity.
Qed.

(** A file of two bytes declared as a PDF, in which pdf2json finds no page,
    and a file declared as a spreadsheet. *)
Lemma processPDF_placeholder_witness :
  processPDF (demoPlatform 384) [x25; x50] (offlineWorld "u1") =
    (Ok "[PDF Content] - This PDF appears to be empty or contains only images. File size: 2 bytes.",
     offlineWorld "u1") /\
  processDocument (demoPlatform 384) [x25; x50] "sheet.xlsx" "xlsx" (offlineWorld "u1") =
    (Throw (mkError "Unsupported file type: xlsx"), offlineWorld "u1").
Proof.
  split.
  - exact (proj1 (proj1 (processPDF_placeholder (demoPlatform 384) [x25; x50] "PDF" "scan.pdf"
                           (offlineWorld "u1"))
                    {| data_Pages := Some [] |} "" eq_refl eq_refl eq_refl eq_refl)).
  - apply (proj2 (proj2 (processPDF_placeholder (demoPlatform 384) [x25; x50] "xlsx" "sheet.xlsx"
                           (offlineWorld "u1")))); discriminate.
Defined.

(* ================================================================== *)
(** * The constraints of the tables are kept                           *)
(* ================================================================== *)

Lemma preserves_ret {A : Type} (I : Db -> Prop) (a : A) : preserves I (ret a).
Proof. intros w r w' [= <- <-] H. exact H. Qed.

Lemma preserves_throw {A : Type} (I : Db -> Prop) (e : Error) : preserves I (@throw A e).
Proof. intros w r w' [= <- <-] H. exact H. Qed.

Lemma preserves_bind {A B : Type} (I : Db -> Prop) (m : M A) (k : A -> M B) :
  preserves I m -> (forall a, preserves I (k a)) -> preserves I (bind m k).
Proof.
  intros Hm Hk w r w' Hrun H. unfold bind in Hrun.
  destruct (m w) as [[a | e] w1] eqn:E.
  - apply (Hk a w1 r w' Hrun). apply (Hm w _ w1 E H).
  - injection Hrun as <- <-. apply (Hm w _ w1 E H).
Qed.

Lemma preserves_tryCatch {A : Type} (I : Db -> Prop) (m : M A) (h : Error -> M A) :
  preserves I m -> (forall e, preserves I (h e)) -> preserves I (tryCatch m h).
Proof.
  intros Hm Hh w r w' Hrun H. unfold tryCatch in Hrun.
  destruct (m w) as [[a | e] w1] eqn:E.
  - injection Hrun as <- <-. apply (Hm w _ w1 E H).
  - apply (Hh e w1 r w' Hrun). apply (Hm w _ w1 E H).
Qed.

Lemma preserves_forEach {A : Type} (I : Db -> Prop) (xs : list A) (body : A -> M unit) :
  (forall x, preserves I (body x)) -> preserves I (forEach xs body).
Proof.
  intros Hb. induction xs as [| x xs IH]; simpl.
  - apply preserves_ret.
  - apply preserves_bind; [apply Hb | intros _; exact IH].
Qed.

(** A computation that leaves the store alone keeps every property of it. *)
Lemma preserves_sameStore {A : Type} (I : Db -> Prop) (m : M A) :
  (forall w r w', m w = (r, w') -> sameStore w w') -> preserves I m.
Proof. intros Hm w r w' Hrun H. destruct (Hm w r w' Hrun) as [Hdb _]. rewrite Hdb. exact H. Qed.

Lemma preserves_getDb (I : Db -> Prop) : preserves I getDb.
Proof. intros w r w' [= <- <-] H. exact H. Qed.

(** A statement that reads the database and writes [f] of it. *)
Lemma preserves_update (I : Db -> Prop) (f : Db -> Db) :
  (forall d, I d -> I (f d)) -> preserves I (bind getDb (fun d => putDb (f d))).
Proof. intros Hf w r w' [= <- <-] H. simpl. apply Hf, H. Qed.

Lemma wellFormed_insertKnowledgeDocument (P : Platform) (t f k text : string) (size : nat)
  (u : string) :
  preserves (wellFormed P) (insertKnowledgeDocument P t f k text size u).
Proof.
  intros w r w' Hrun (Hpk & Hfk & Hdim).
  unfold insertKnowledgeDocument, bind, getDb, putDb, ret, throw in Hrun. simpl in Hrun.
  destruct (existsb _ _) eqn:E; injection Hrun as <- <-; [repeat split; assumption |].
  split; [| split]; simpl.
  - rewrite map_app. simpl. apply NoDup_app; [exact Hpk | repeat constructor; intros [] |].
    intros x Hx [Hy | []]. subst x. apply in_map_iff in Hx. destruct Hx as (d & Hid & Hd).
    assert (Hex : existsb (fun r => id r =? gen_random_uuid P (serial (db w))) (documents (db w))
                  = true).
    { apply existsb_exists. exists d. split; [exact Hd | apply String.eqb_eq, Hid]. }
    simpl in E. congruence.
  - intros c Hc. destruct (Hfk c Hc) as (d & Hd & Hid).
    exists d. split; [apply in_or_app; left; exact Hd | exact Hid].
  - exact Hdim.
Qed.

Lemma wellFormed_insertDocumentChunk (P : Platform) (row : ChunkRow) :
  preserves (wellFormed P) (insertDocumentChunk P row).
Proof.
  intros w r w' Hrun (Hpk & Hfk & Hdim).
  unfold insertDocumentChunk, bind, getDb, putDb, throw in Hrun.
  destruct (length (row_embedding row) =? vectorDim P)%nat eqn:Ed; simpl in Hrun;
    [| injection Hrun as <- <-; repeat split; assumption].
  destruct (existsb _ _) eqn:Ef; simpl in Hrun; injection Hrun as <- <-;
    [| repeat split; assumption].
  simpl. split; [exact Hpk |]. split.
  - intros c Hc. apply in_app_or in Hc. destruct Hc as [Hc | [<- | []]].
    + apply Hfk, Hc.
    + apply referenced_iff, Ef.
  - intros c Hc. apply in_app_or in Hc. destruct Hc as [Hc | [<- | []]].
    + apply Hdim, Hc.
    + apply Nat.eqb_eq, Ed.
Qed.

Lemma NoDup_map_filter {A B : Type} (g : A -> B) (f : A -> bool) (l : list A) :
  NoDup (map g l) -> NoDup (map g (filter f l)).
Proof.
  induction l as [| x l IH]; simpl; intros H; [constructor |].
  inversion H as [| y m Hx Hl]; subst.
  destruct (f x); simpl; [constructor |]; auto.
  intros Hin. apply Hx. apply in_map_iff in Hin. destruct Hin as (z & Hz & Hzl).
  apply in_map_iff. exists z. split; [exact Hz |]. apply filter_In in Hzl. apply Hzl.
Qed.

(** With the primary key, the cascade removes the chunks of the deleted
    documents and leaves no chunk without its document. *)
Lemma wellFormed_afterDelete (P : Platform) (cond : KnowledgeDocument -> bool) (d : Db) :
  wellFormed P d -> wellFormed P (afterDelete cond d).
Proof.
  intros (Hpk & Hfk & Hdim). split; [| split].
  - apply NoDup_map_filter, Hpk.
  - intros c Hc. apply afterDelete_chunks in Hc. destruct Hc as [Hc Hn].
    destruct (Hfk c Hc) as (r & Hr & Hid). exists r. split; [| exact Hid].
    apply afterDelete_documents. split; [exact Hr |].
    destruct (cond r) eqn:E; [| reflexivity].
    exfalso. apply Hn. exists r. auto.
  - intros c Hc. apply afterDelete_chunks in Hc. apply Hdim, Hc.
Qed.

Lemma wellFormed_deleteChunksWhere (P : Platform) (cond : ChunkRow -> bool) :
  preserves (wellFormed P) (deleteChunksWhere cond).
Proof.
  apply (preserves_update (wellFormed P)
           (fun d => {| documents := documents d;
                        chunks := filter (fun c => negb (cond c)) (chunks d);
                        serial := serial d |})).
  intros d (Hpk & Hfk & Hdim). split; [exact Hpk |]. split.
  - intros c Hc. simpl in Hc. apply filter_In in Hc. apply Hfk, Hc.
  - intros c Hc. simpl in Hc. apply filter_In in Hc. apply Hdim, Hc.
Qed.

Lemma wellFormed_updateContentWhere (P : Platform) (text : string)
  (cond : KnowledgeDocument -> bool) :
  preserves (wellFormed P) (updateContentWhere text cond).
Proof.
  apply (preserves_update (wellFormed P)
           (fun d => {| documents := map (fun r => if cond r then setContent text r else r)
                                         (documents d);
                        chunks := chunks d;
                        serial := serial d |})).
  intros d (Hpk & Hfk & Hdim).
  assert (Hids : map id (map (fun r => if cond r then setContent text r else r) (documents d))
                 = map id (documents d)).
  { rewrite map_map. apply map_ext. intros r. destruct (cond r); reflexivity. }
  split; [simpl; rewrite Hids; exact Hpk |]. split; [| exact Hdim].
  intros c Hc. destruct (Hfk c Hc) as (r & Hr & Hid).
  exists (if cond r then setContent text r else r). split.
  - simpl. apply in_map_iff. exists r. split; [reflexivity | exact Hr].
  - destruct (cond r); exact Hid.
Qed.

Lemma embedQuery_sameStore (P : Platform) (query : string) (w w' : World) (r : Result (list Q)) :
  embedQuery P query w = (r, w') -> sameStore w w'.
Proof.
  intros H. destruct (embedQuery_run P query w) as (v & w1 & Hrun & Hs & _).
  rewrite Hrun in H. injection H as _ <-. exact Hs.
Qed.

(** Every method of [KnowledgeBase], and the search tool, keeps the
    constraints of the tables, also when it throws half-way. *)
Lemma wellFormed_preserved (P : Platform) :
  (forall buffer f k t u, preserves (wellFormed P) (addDocument P buffer f k t u)) /\
  (forall documentId u, preserves (wellFormed P) (deleteDocument documentId u)) /\
  (forall documentId u, preserves (wellFormed P) (reprocessDocument P documentId u)) /\
  (forall query limit thr u, preserves (wellFormed P) (searchSimilar P query limit thr u)) /\
  (forall query limit, preserves (wellFormed P) (execute P query limit)).
Proof.
  assert (Hproc : forall buffer f k, preserves (wellFormed P) (processDocument P buffer f k)).
  { intros buffer f k. apply preserves_sameStore. intros w r w'.
    apply processDocument_sameStore. }
  assert (Hchunks : forall documentId cs, preserves (wellFormed P) (insertChunks P documentId cs)).
  { intros documentId cs. apply preserves_forEach. intros c.
    apply wellFormed_insertDocumentChunk. }
  assert (Hsearch : forall query limit thr u,
            preserves (wellFormed P) (searchSimilar P query limit thr u)).
  { intros query limit thr u. apply preserves_tryCatch; [| intros e; apply preserves_throw].
    apply preserves_bind.
    - apply preserves_sameStore. intros w r w'. apply embedQuery_sameStore.
    - intros qe. apply preserves_bind; [| intros rs; apply preserves_ret].
      unfold selectSimilar. apply preserves_bind; [apply preserves_getDb |].
      intros d. destruct (limit <? 0)%Z; [apply preserves_throw | apply preserves_ret]. }
  split; [| split; [| split; [| split]]].
  - intros buffer f k t u. apply preserves_tryCatch; [| intros e; apply preserves_throw].
    apply preserves_bind; [apply Hproc |]. intros pd.
    apply preserves_bind; [apply wellFormed_insertKnowledgeDocument |]. intros doc.
    apply preserves_bind; [apply Hchunks | intros _; apply preserves_ret].
  - intros documentId u. unfold deleteDocument, deleteDocumentsWhere.
    apply preserves_update. intros d. apply wellFormed_afterDelete.
  - intros documentId u. apply preserves_tryCatch; [| intros e; apply preserves_throw].
    unfold reprocessBody. apply preserves_bind.
    + unfold selectOwnedDocument. apply preserves_bind; [apply preserves_getDb |].
      intros d. apply preserves_ret.
    + intros [doc |]; [| apply preserves_throw].
      apply preserves_bind; [apply wellFormed_deleteChunksWhere |]. intros _.
      apply preserves_bind; [apply wellFormed_updateContentWhere |]. intros _.
      apply preserves_bind; [apply Hproc | intros pd; apply Hchunks].
  - exact Hsearch.
  - intros query limit. apply preserves_tryCatch; [| intros e; apply preserves_ret].
    apply preserves_bind.
    + apply preserves_sameStore. intros w r w' H. unfold auth in H.
      destruct (session w); injection H as _ <-; apply sameStore_refl.
    + intros uid. destruct (negb (JS.truthy uid)); [apply preserves_ret |].
      apply preserves_bind; [apply Hsearch |]. intros rs.
      destruct (length rs =? 0)%nat; apply preserves_ret.
Qed.

(* ================================================================== *)
(** * Ordering                                                         *)
(* ================================================================== *)

Lemma insertBy_In {A : Type} (leb : A -> A -> bool) (x y : A) (l : list A) :
  In y (insertBy leb x l) <-> y = x \/ In y l.
Proof.
  split.
  - intros H. apply (Permutation_in y (insertBy_perm leb x l)) in H.
    destruct H as [H | H]; auto.
  - intros H. apply (Permutation_in y (Permutation_sym (insertBy_perm leb x l))).
    destruct H as [H | H]; [left; auto | right; exact H].
Qed.

(** Insertion into a sorted list keeps it sorted, for a total and
    transitive order. *)
Lemma insertBy_sorted {A : Type} (leb : A -> A -> bool) (x : A) (l : list A) :
  (forall a b, leb a b = false -> leb b a = true) ->
  (forall a b c, leb a b = true -> leb b c = true -> leb a c = true) ->
  StronglySorted (fun a b => leb a b = true) l ->
  StronglySorted (fun a b => leb a b = true) (insertBy leb x l).
Proof.
  intros Htot Htrans. induction l as [| y r IH]; intros Hs; simpl.
  - constructor; constructor.
  - inversion Hs as [| y' r' Hr Hy]; subst.
    destruct (leb x y) eqn:E.
    + constructor; [exact Hs |]. constructor; [exact E |].
      eapply Forall_impl; [| exact Hy]. intros z Hz. apply (Htrans x y z E Hz).
    + constructor; [apply IH, Hr |].
      apply Forall_forall. intros z Hz. apply insertBy_In in Hz.
      destruct Hz as [-> | Hz]; [apply Htot, E |].
      rewrite Forall_forall in Hy. apply Hy, Hz.
Qed.

Lemma sortBy_sorted {A : Type} (leb : A -> A -> bool) (l : list A) :
  (forall a b, leb a b = false -> leb b a = true) ->
  (forall a b c, leb a b = true -> leb b c = true -> leb a c = true) ->
  StronglySorted (fun a b => leb a b = true) (sortBy leb l).
Proof.
  intros Htot Htrans. induction l as [| x r IH]; simpl.
  - constructor.
  - apply insertBy_sorted; assumption.
Qed.

(** Sorting a list that is already in order changes nothing. *)
Lemma sortBy_id {A : Type} (leb : A -> A -> bool) (l : list A) :
  Sorted (fun a b => leb a b = true) l -> sortBy leb l = l.
Proof.
  induction l as [| x r IH]; intros Hs; simpl; [reflexivity |].
  inversion Hs as [| x' r' Hr Hx]; subst. rewrite (IH Hr).
  destruct r as [| y r]; simpl; [reflexivity |].
  inversion Hx as [| y' r'' Hxy]; subst. rewrite Hxy. reflexivity.
Qed.

Lemma StronglySorted_weaken {A : Type} (R S : A -> A -> Prop) (l : list A) :
  (forall a b, R a b -> S a b) -> StronglySorted R l -> StronglySorted S l.
Proof.
  intros H Hs. induction Hs as [| x r Hr IH Hx]; constructor; [exact IH |].
  eapply Forall_impl; [| exact Hx]. intros z. apply H.
Qed.

Lemma StronglySorted_firstn {A : Type} (R : A -> A -> Prop) (n : nat) (l : list A) :
  StronglySorted R l -> StronglySorted R (firstn n l).
Proof.
  revert l. induction n as [| n IH]; intros l Hs; simpl; [constructor |].
  destruct l as [| x r]; [constructor |].
  inversion Hs as [| x' r' Hr Hx]; subst. constructor; [apply IH, Hr |].
  apply Forall_forall. intros z Hz. rewrite Forall_forall in Hx.
  apply Hx. apply (firstn_In n r z Hz).
Qed.

(** The elements that a truncation drops come after all those it keeps. *)
Lemma firstn_top {A : Type} (R : A -> A -> Prop) (n : nat) (l : list A) (x : A) :
  StronglySorted R l -> In x l ->
  In x (firstn n l) \/ Forall (fun r => R r x) (firstn n l).
Proof.
  revert l. induction n as [| n IH]; intros l Hs Hx; simpl.
  - right. constructor.
  - destruct l as [| y r]; [contradiction |].
    inversion Hs as [| y' r' Hr Hy]; subst.
    destruct Hx as [-> | Hx]; [left; left; reflexivity |].
    destruct (IH r Hr Hx) as [H | H]; [left; right; exact H |].
    right. constructor; [| exact H].
    rewrite Forall_forall in Hy. apply Hy, Hx.
Qed.

Lemma StronglySorted_map {A B : Type} (R : A -> A -> Prop) (S : B -> B -> Prop)
  (f : A -> B) (l : list A) :
  (forall a b, R a b -> S (f a) (f b)) ->
  StronglySorted R l -> StronglySorted S (map f l).
Proof.
  intros H Hs. induction Hs as [| x r Hr IH Hx]; simpl; constructor; [exact IH |].
  apply Forall_map. eapply Forall_impl; [| exact Hx]. intros z. apply H.
Qed.

Lemma bySimilarityDesc_total (a b : SearchResult) :
  bySimilarityDesc a b = false -> bySimilarityDesc b a = true.
Proof.
  unfold bySimilarityDesc. intros H. apply Qle_bool_iff.
  destruct (Qlt_le_dec (similarity a) (similarity b)) as [Hlt | Hle].
  - apply Qlt_le_weak, Hlt.
  - apply Qle_bool_iff in Hle. congruence.
Qed.

Lemma bySimilarityDesc_trans (a b c : SearchResult) :
  bySimilarityDesc a b = true -> bySimilarityDesc b c = true -> bySimilarityDesc a c = true.
Proof.
  unfold bySimilarityDesc. rewrite !Qle_bool_iff. intros H1 H2.
  apply (Qle_trans _ _ _ H2 H1).
Qed.

(** What a returned list of [searchSimilar] is made of. *)
Lemma searchSimilar_Ok_inv (P : Platform) (query : string) (limit : Z) (thr : Q)
  (u : option string) (w w' : World) (rs : list SearchResult) :
  searchSimilar P query limit thr u w = (Ok rs, w') ->
  exists qe,
    embedQuery P query w = (Ok qe, w') /\ sameStore w w' /\ (0 <= limit)%Z /\
    rs = firstn (Z.to_nat limit)
           (sortBy bySimilarityDesc
              (map (selectColumns P qe)
                 (filter (and_ (whereConditions P qe thr u)) (innerJoin (db w))))).
Proof.
  intros H. destruct (searchSimilar_run P query limit thr u w) as (qe & w1 & Hq & Hs & Hrun).
  rewrite Hrun in H. destruct (Z.ltb_spec limit 0); [discriminate |].
  injection H as <- <-. exists qe. auto.
Qed.

(** X1.  The results of [searchSimilar] are ranked: they come in order of
    non-increasing similarity, and a stored row that passes the [where]
    clause and is not returned has a similarity that is at most that of every
    returned result (the limit cuts the list at its low end). *)
Theorem searchSimilar_ranked (P : Platform) (query : string) (limit : Z) (thr : Q)
  (u : option string) (w w' : World) (rs : list SearchResult) :
  searchSimilar P query limit thr u w = (Ok rs, w') ->
  StronglySorted (fun a b => (similarity b <= similarity a)%Q) rs /\
  exists qe,
    embedQuery P query w = (Ok qe, w') /\
    forall row,
      In row (innerJoin (db w)) ->
      and_ (whereConditions P qe thr u) row = true ->
      In (selectColumns P qe row) rs \/
      Forall (fun r => (similarityTo P qe (fst row) <= similarity r)%Q) rs.
Proof.
  intros H. destruct (searchSimilar_Ok_inv _ _ _ _ _ _ _ _ H) as (qe & Hq & _ & _ & ->).
  set (l := map (selectColumns P qe)
              (filter (and_ (whereConditions P qe thr u)) (innerJoin (db w)))).
  assert (Hsorted : StronglySorted (fun a b => bySimilarityDesc a b = true)
                      (sortBy bySimilarityDesc l)).
  { apply sortBy_sorted; [apply bySimilarityDesc_total | apply bySimilarityDesc_trans]. }
  split.
  - apply StronglySorted_firstn.
    apply (StronglySorted_weaken (fun a b => bySimilarityDesc a b = true)); [| exact Hsorted].
    intros a b Hab. apply Qle_bool_iff, Hab.
  - exists qe. split; [exact Hq |]. intros row Hrow Hpass.
    assert (Hin : In (selectColumns P qe row) (sortBy bySimilarityDesc l)).
    { apply sortBy_In. unfold l. apply in_map. apply filter_In. auto. }
    destruct (firstn_top _ (Z.to_nat limit) _ _ Hsorted Hin) as [Hl | Hr]; [left; exact Hl |].
    right. eapply Forall_impl; [| exact Hr].
    intros r Hr'. apply Qle_bool_iff in Hr'. exact Hr'.
Qed.

(** The user [u2] searches the text of the stored chunk. *)
Lemma searchSimilar_ranked_witness :
  exists rs w',
    searchSimilar (demoPlatform 384) "hello" 5 (2 # 10) (Some "u2") (u2World (Some "u2"))
      = (Ok rs, w') /\
    StronglySorted (fun a b => (similarity b <= similarity a)%Q) rs.
Proof.
  destruct (searchSimilar_run (demoPlatform 384) "hello" 5 (2 # 10) (Some "u2")
              (u2World (Some "u2"))) as (qe & w1 & _ & _ & Hrun).
  simpl in Hrun. eexists; exists w1. split; [exact Hrun |].
  exact (proj1 (searchSimilar_ranked _ _ _ _ _ _ _ _ Hrun)).
Defined.






(* ================================================================== *)
(** * More on the processor                                            *)
(* ================================================================== *)

Lemma createChunksLoop_metadata (P : Platform) (name : string) (total : nat)
  (textChunks : list string) (i : nat) (w w' : World) (cs : list DocumentChunk) :
  createChunksLoop P name total i textChunks w = (Ok cs, w') ->
  Forall (fun c => md_filename (metadata c) = name /\
                   md_chunkLength (metadata c) = String.length (content c)) cs.
Proof.
  revert i w w' cs. induction textChunks as [| text rest IH]; intros i w w' cs H; simpl in H.
  - injection H as <- _. constructor.
  - destruct (embedChunk_run P name total i text w)
      as (c & w1 & Hrun & _ & Hcont & _ & Hmd & _).
    unfold bind in H. rewrite Hrun in H.
    destruct (createChunksLoop P name total (S i) rest w1) as [[cs' | e] w2] eqn:E;
      [| discriminate].
    injection H as <- _. constructor; [| apply (IH _ _ _ _ E)].
    rewrite Hmd, Hcont. split; reflexivity.
Qed.

(** X3.  [createChunks] returns one chunk per segment of the splitter, in
    order: chunk [i] carries segment [i] as its content, the ordinal [i], the
    number of segments as [totalChunks], the length of its content as
    [chunkLength] and the filename; the database is not touched. *)
Theorem createChunks_ordinals (P : Platform) (text name : string) (w : World) :
  exists cs w',
    createChunks P text name w = (Ok cs, w') /\
    db w' = db w /\
    length cs = length (textSplitter P text) /\
    forall i segment,
      nth_error (textSplitter P text) i = Some segment ->
      exists c,
        nth_error cs i = Some c /\
        content c = segment /\
        chunkIndex c = i /\
        md_totalChunks (metadata c) = length (textSplitter P text) /\
        md_chunkLength (metadata c) = String.length segment /\
        md_filename (metadata c) = name.
Proof.
  destruct (createChunks_run P text name w)
    as (cs & w' & Hrun & [Hdb _] & Hmap & Hidx & Htot & _).
  exists cs, w'. split; [exact Hrun |]. split; [exact Hdb |].
  split; [rewrite <- Hmap; symmetry; apply length_map |].
  intros i segment Hseg.
  assert (Hmd := createChunksLoop_metadata P name _ _ 0 w w' cs Hrun).
  rewrite <- Hmap in Hseg. rewrite nth_error_map in Hseg.
  destruct (nth_error cs i) as [c |] eqn:Hc; [| discriminate].
  simpl in Hseg. injection Hseg as Hseg.
  exists c. split; [reflexivity |]. split; [exact Hseg |].
  assert (Hin : In c cs) by (eapply nth_error_In; exact Hc).
  rewrite Forall_forall in Htot, Hmd.
  destruct (Hmd c Hin) as [Hname Hlen].
  split.
  - assert (Hi : nth_error (map chunkIndex cs) i = Some (chunkIndex c))
      by (rewrite nth_error_map, Hc; reflexivity).
    rewrite Hidx in Hi.
    assert (Hlt : i < length (textSplitter P text)).
    { rewrite <- Hmap, length_map. apply nth_error_Some. rewrite Hc. discriminate. }
    rewrite nth_error_seq in Hi.
    destruct (Nat.ltb_spec i (length (textSplitter P text))); [| lia].
    injection Hi as Hi. simpl in Hi. congruence.
  - split; [apply Htot, Hin |]. split; [rewrite Hlen, Hseg; reflexivity | exact Hname].
Qed.


(* ================================================================== *)
(** * More on the rolling hash                                         *)
(* ================================================================== *)

Lemma charCodes_app (a b : string) :
  JS.charCodes (a ++ b) = JS.charCodes a ++ JS.charCodes b.
Proof.
  unfold JS.charCodes. induction a as [| c a IH]; simpl; [reflexivity |].
  f_equal. exact IH.
Qed.

Lemma charCodes_length (a : string) : length (JS.charCodes a) = String.length a.
Proof.
  unfold JS.charCodes. induction a as [| c a IH]; simpl; [reflexivity |].
  f_equal. exact IH.
Qed.

(** The polynomial from a start value: the start value is multiplied by
    31 to the number of code units. *)
Lemma horner_start (cs : list Z) (h : Z) :
  fold_left (fun a c => (31 * a + c)%Z) cs h = (31 ^ Z.of_nat (length cs) * h + poly31 cs)%Z.
Proof.
  unfold poly31. revert h. induction cs as [| c cs IH]; intros h.
  - cbn [fold_left length Z.of_nat]. rewrite Z.pow_0_r. lia.
  - cbn [fold_left length]. rewrite IH, (IH (31 * 0 + c)%Z).
    rewrite Nat2Z.inj_succ, Z.pow_succ_r by lia. ring.
Qed.

(** The hash of a concatenation, from the hash of its first part. *)
Lemma hashCodes_app (a b : list Z) :
  hashCodes (a ++ b) = JS.toInt32 (31 ^ Z.of_nat (length b) * hashCodes a + poly31 b).
Proof.
  unfold hashCodes at 1. rewrite fold_left_app. fold (hashCodes a).
  rewrite (hash_fold_wrap b (hashCodes a) (hashCodes a)).
  - rewrite horner_start. reflexivity.
  - rewrite hashCodes_poly31. symmetry. apply toInt32_congr, toInt32_mod.
Qed.

(** X5.  The hash is a congruence for concatenation, so collisions spread:
    when two texts of the same length have the same hash, putting them
    between the same prefix and the same suffix gives two texts with the same
    fallback embedding. *)
Theorem createHashBasedEmbedding_collisions (P : Platform) (m1 m2 : string) :
  String.length m1 = String.length m2 ->
  hashCodes (JS.charCodes m1) = hashCodes (JS.charCodes m2) ->
  forall before after : string,
    createHashBasedEmbedding P (before ++ m1 ++ after)
      = createHashBasedEmbedding P (before ++ m2 ++ after).
Proof.
  intros Hlen Hhash before after.
  assert (Hmid : hashCodes (JS.charCodes before ++ JS.charCodes m1)
                 = hashCodes (JS.charCodes before ++ JS.charCodes m2)).
  { rewrite !hashCodes_app, !charCodes_length, Hlen.
    apply toInt32_congr.
    rewrite !hashCodes_poly31 in Hhash.
    assert (Hp : (poly31 (JS.charCodes m1) mod 2 ^ 32
                  = poly31 (JS.charCodes m2) mod 2 ^ 32)%Z).
    { rewrite <- (toInt32_mod (poly31 (JS.charCodes m1))), Hhash. apply toInt32_mod. }
    rewrite (Zplus_mod _ (poly31 (JS.charCodes m1))), Hp, <- Zplus_mod. reflexivity. }
  assert (Hall : hashCodes (JS.charCodes (before ++ m1 ++ after))
                 = hashCodes (JS.charCodes (before ++ m2 ++ after))).
  { rewrite !charCodes_app, !app_assoc.
    rewrite (hashCodes_app (JS.charCodes before ++ JS.charCodes m1)).
    rewrite (hashCodes_app (JS.charCodes before ++ JS.charCodes m2)).
    rewrite Hmid. reflexivity. }
  unfold createHashBasedEmbedding. rewrite Hall. reflexivity.
Qed.

(** The texts "Aa" and "BB" collide, hence so do "user Aaron" and
    "user BBron". *)
Lemma createHashBasedEmbedding_collisions_witness :
  createHashBasedEmbedding (demoPlatform 384) "user Aaron"
    = createHashBasedEmbedding (demoPlatform 384) "user BBron" /\
  "user Aaron" <> "user BBron".
Proof.
  split; [| discriminate].
  exact (createHashBasedEmbedding_collisions (demoPlatform 384) "Aa" "BB"
           eq_refl eq_refl "user " "ron").
Defined.

(* ================================================================== *)
(** * More on the content extractor                                    *)
(* ================================================================== *)

(** X6.  Whatever pdf2json delivers, the content of a document processed as
    a PDF (in any spelling of the kind) is never empty: it is the text that
    [processPDF] returned, which is the trimmed text of the file when that
    has characters, and one of the two messages otherwise. *)
Theorem processPDF_never_empty (P : Platform) (buffer : Buffer) (name kind : string)
  (w w' : World) (pd : ProcessedDocument) :
  JS.toLowerCase kind = "pdf" ->
  processDocument P buffer name kind w = (Ok pd, w') ->
  pd_content pd <> "" /\
  processPDF P buffer w = (Ok (pd_content pd), w) /\
  (pd_content pd = emptyPdfMessage (length buffer) \/
   pd_content pd = unreadablePdfMessage (length buffer) \/
   exists pdfData text,
     pdf2json P buffer = pdfParser_dataReady pdfData /\
     readPdfData P pdfData = Some text /\ pd_content pd = JS.trim text).
Proof.
  intros Hkind H.
  destruct (processDocument_run P buffer name kind w)
    as [(e & _ & Hp) | (text & cs & w1 & Hx & _ & _ & Hp)];
    rewrite Hp in H; [discriminate |].
  injection H as <- _. simpl.
  rewrite (extractContent_pdf P buffer kind w Hkind) in Hx.
  split; [| split; [exact Hx |]]; unfold processPDF in Hx;
    destruct (pdf2json P buffer) as [| | pdfData]; try discriminate;
    destruct (readPdfData P pdfData) as [t |] eqn:Hr.
  - destruct (String.length (JS.trim t) =? 0)%nat eqn:E; injection Hx as <-.
    + discriminate.
    + intros Hempty. rewrite Hempty in E. discriminate.
  - injection Hx as <-. discriminate.
  - destruct (String.length (JS.trim t) =? 0)%nat eqn:E; injection Hx as <-.
    + left. reflexivity.
    + right. right. exists pdfData, t. auto.
  - injection Hx as <-. right. left. reflexivity.
Qed.

(** A file declared as "PDF" in which pdf2json finds no page. *)
Lemma processPDF_never_empty_witness :
  exists pd w',
    processDocument (demoPlatform 384) [x25; x50] "scan.pdf" "PDF" (offlineWorld "u1")
      = (Ok pd, w') /\
    pd_content pd <> "".
Proof.
  destruct (processDocument_run (demoPlatform 384) [x25; x50] "scan.pdf" "PDF"
              (offlineWorld "u1"))
    as [(e & Hx & _) | (text & cs & w1 & _ & _ & _ & Hp)]; [discriminate Hx |].
  eexists; exists w1. split; [exact Hp |].
  exact (proj1 (processPDF_never_empty (demoPlatform 384) _ _ "PDF" _ _ _ eq_refl Hp)).
Defined.

(* ================================================================== *)
(** * Ingestion followed by other operations                           *)
(* ================================================================== *)

Lemma insertDocumentChunk_Ok_inv (P : Platform) (row : ChunkRow) (w w' : World) :
  insertDocumentChunk P row w = (Ok tt, w') ->
  appended w w' [row] /\ length (row_embedding row) = vectorDim P.
Proof.
  unfold insertDocumentChunk, bind, getDb, putDb, throw. intros H.
  destruct (length (row_embedding row) =? vectorDim P)%nat eqn:Ed; simpl in H;
    [| discriminate].
  destruct (existsb _ _); simpl in H; [| discriminate].
  injection H as <-. split; [repeat split | apply Nat.eqb_eq, Ed].
Qed.

Lemma insertChunks_Ok_inv (P : Platform) (documentId : string) (cs : list DocumentChunk)
  (w w' : World) :
  insertChunks P documentId cs w = (Ok tt, w') ->
  appended w w' (map (chunkValues documentId) cs) /\ Forall (accepted P) cs.
Proof.
  revert w. induction cs as [| c cs IH]; intros w H.
  - injection H as <-. split; [apply appended_nil | constructor].
  - unfold insertChunks in H. simpl in H. unfold bind in H.
    destruct (insertDocumentChunk P (chunkValues documentId c) w) as [[[] | e] w1] eqn:E;
      [| discriminate].
    destruct (insertDocumentChunk_Ok_inv _ _ _ _ E) as [Happ Hdim].
    destruct (IH w1 H) as [Happ2 Hall]. split.
    + apply (appended_trans w w1 w' [chunkValues documentId c]); assumption.
    + constructor; assumption.
Qed.

(** What a call of [addDocument] that returns has done. *)
Lemma addDocument_Ok_inv (P : Platform) (buffer : Buffer) (f k t u : string)
  (w w' : World) (doc : KnowledgeDocument) :
  addDocument P buffer f k t u w = (Ok doc, w') ->
  exists pd w1,
    processDocument P buffer f k w = (Ok pd, w1) /\
    doc = documentValues P t f k u pd (db w) /\
    (forall d, In d (documents (db w)) -> id d <> id doc) /\
    session w' = session w /\
    documents (db w') = documents (db w) ++ [doc] /\
    chunks (db w') = chunks (db w) ++ map (chunkValues (id doc)) (pd_chunks pd).
Proof.
  intros H. unfold addDocument, tryCatch, bind in H.
  destruct (processDocument P buffer f k w) as [[pd | e] w1] eqn:Hp; [| discriminate].
  destruct (processDocument_sameStore _ _ _ _ _ _ _ Hp) as [Hdb Hse].
  exists pd, w1. split; [reflexivity |].
  unfold insertKnowledgeDocument, bind, getDb, putDb, ret, throw in H. simpl in H.
  destruct (existsb _ (documents (db w1))) eqn:E; [discriminate |].
  match type of H with
  | context [insertChunks P ?i ?cs ?w2] =>
      destruct (insertChunks P i cs w2) as [[[] | e] w3] eqn:Hi; [| discriminate]
  end.
  injection H as <- <-.
  destruct (insertChunks_Ok_inv _ _ _ _ _ Hi) as [(_ & Hs & Hd & Hc & _) _].
  simpl in Hs, Hd, Hc. rewrite Hdb in *.
  split; [reflexivity |]. split.
  - intros d Hd' Heq. simpl in Heq.
    assert (Hex : existsb (fun r => id r =? gen_random_uuid P (serial (db w)))
                    (documents (db w)) = true).
    { apply existsb_exists. exists d. split; [exact Hd' | apply String.eqb_eq, Heq]. }
    simpl in E. congruence.
  - split; [congruence |]. split; [exact Hd | exact Hc].
Qed.

Lemma sorted_of_seq {A : Type} (f : A -> nat) (l : list A) (a : nat) :
  map f l = seq a (length l) -> Sorted (fun x y => (f x <=? f y)%nat = true) l.
Proof.
  revert a. induction l as [| x r IH]; intros a H; [constructor |].
  simpl in H. injection H as Hx Hr. constructor; [apply (IH (S a) Hr) |].
  destruct r as [| y r]; [constructor |].
  simpl in Hr. injection Hr as Hy _. constructor. apply Nat.leb_le. lia.
Qed.

(** X7.  Reading back what was ingested: in a store where every chunk
    references a document, after [addDocument] has returned a document,
    [getDocumentChunks] of its id returns its chunks and no other, in the
    order of the split: their ordinals are 0, 1, 2, ... and their contents
    are the segments of the stored content. *)
Theorem addDocument_then_getDocumentChunks (P : Platform) (buffer : Buffer)
  (f k t u : string) (w w' : World) (doc : KnowledgeDocument) :
  referentialIntegrity (db w) ->
  addDocument P buffer f k t u w = (Ok doc, w') ->
  exists cs text,
    getDocumentChunks (id doc) w' = (Ok cs, w') /\
    doc_content doc = Some text /\
    map row_content cs = textSplitter P text /\
    map row_chunkIndex cs = seq 0 (length cs) /\
    Forall (fun c => row_documentId c = id doc /\ length (row_embedding c) = vectorDim P) cs.
Proof.
  intros Hfk H.
  destruct (addDocument_Ok_inv _ _ _ _ _ _ _ _ _ H)
    as (pd & w1 & Hp & Hdoc & Hfresh & _ & Hd & Hc).
  assert (Hacc : Forall (accepted P) (pd_chunks pd)).
  { unfold addDocument, tryCatch, bind in H. rewrite Hp in H.
    unfold insertKnowledgeDocument, bind, getDb, putDb, ret, throw in H. simpl in H.
    destruct (existsb _ _); [discriminate |].
    match type of H with
    | context [insertChunks P ?i ?cs ?w2] =>
        destruct (insertChunks P i cs w2) as [[[] | e] w3] eqn:Hi; [| discriminate]
    end.
    apply (insertChunks_Ok_inv _ _ _ _ _ Hi). }
  destruct (processDocument_run P buffer f k w)
    as [(e & _ & Hp') | (text & cs0 & w2 & _ & Hcs & _ & Hp')];
    rewrite Hp' in Hp; [discriminate |].
  injection Hp as <- <-. simpl in *.
  destruct (createChunks_run P text f w) as (cs1 & w3 & Hrun & _ & Hmap & Hidx & _).
  rewrite Hrun in Hcs. injection Hcs as <- <-.
  assert (Hold : filter (fun c => row_documentId c =? id doc) (chunks (db w)) = []).
  { apply filter_none. intros c Hin.
    destruct (row_documentId c =? id doc) eqn:E; [| reflexivity].
    apply String.eqb_eq in E. destruct (Hfk c Hin) as (d & Hd' & Hid).
    exfalso. apply (Hfresh d Hd'). congruence. }
  assert (Hnew : filter (fun c => row_documentId c =? id doc)
                   (map (chunkValues (id doc)) cs1) = map (chunkValues (id doc)) cs1).
  { apply filter_all. intros c Hin. apply in_map_iff in Hin.
    destruct Hin as (c0 & <- & _). simpl. apply String.eqb_refl. }
  exists (map (chunkValues (id doc)) cs1), text.
  split.
  - unfold getDocumentChunks, bind, getDb, ret. rewrite Hc, filter_app, Hold, Hnew. simpl.
    rewrite sortBy_id; [reflexivity |].
    apply (sorted_of_seq row_chunkIndex _ 0).
    rewrite map_map, length_map. simpl.
    rewrite <- (length_map content cs1), Hmap. exact Hidx.
  - split; [rewrite Hdoc; reflexivity |].
    split; [rewrite map_map; exact Hmap |].
    split.
    + rewrite map_map, length_map. simpl.
      rewrite <- (length_map content cs1), Hmap. exact Hidx.
    + apply Forall_map. eapply Forall_impl; [| exact Hacc].
      intros c Hc'. split; [reflexivity | exact Hc'].
Qed.

(** The file "hello" is added to the empty store and its chunk is read
    back. *)
Lemma addDocument_then_getDocumentChunks_witness :
  exists doc w' cs,
    addDocument (demoPlatform 384) (list_byte_of_string "hello") "a.txt" "txt" "A" "u1"
      (offlineWorld "u1") = (Ok doc, w') /\
    getDocumentChunks (id doc) w' = (Ok cs, w') /\
    map row_content cs = ["hello"].
Proof.
  destruct (addDocument (demoPlatform 384) (list_byte_of_string "hello") "a.txt" "txt" "A" "u1"
              (offlineWorld "u1")) as [r w'] eqn:Hrun.
  assert (Hr : exists doc, r = Ok doc /\ doc_content doc = Some "hello").
  { vm_compute in Hrun. injection Hrun as <- _. eexists. split; reflexivity. }
  destruct Hr as (doc & -> & Hcontent).
  assert (Hfk : referentialIntegrity (db (offlineWorld "u1"))).
  { intros c Hc. destruct Hc. }
  destruct (addDocument_then_getDocumentChunks (demoPlatform 384) _ _ _ _ _ _ _ _ Hfk Hrun)
    as (cs & text & Hget & Htext & Hcs & _).
  exists doc, w', cs. split; [reflexivity |]. split; [exact Hget |].
  rewrite Hcs. rewrite Hcontent in Htext. injection Htext as <-. reflexivity.
Defined.

(** X8.  Ingestion undone by deletion: in a store where every chunk
    references a document, when [addDocument] for a user has returned a
    document, [deleteDocument] of its id by the same user puts both tables
    back as they were before the upload. *)
Theorem addDocument_then_deleteDocument (P : Platform) (buffer : Buffer)
  (f k t u : string) (w w' : World) (doc : KnowledgeDocument) :
  referentialIntegrity (db w) ->
  addDocument P buffer f k t u w = (Ok doc, w') ->
  exists w'',
    deleteDocument (id doc) u w' = (Ok tt, w'') /\
    documents (db w'') = documents (db w) /\
    chunks (db w'') = chunks (db w).
Proof.
  intros Hfk H.
  destruct (addDocument_Ok_inv _ _ _ _ _ _ _ _ _ H)
    as (pd & w1 & Hp & Hdoc & Hfresh & _ & Hd & Hc).
  assert (Hu : userId doc = u) by (rewrite Hdoc; reflexivity).
  eexists. split; [apply deleteDocument_run |]. simpl.
  assert (Hold : forall d, In d (documents (db w)) -> ownedBy (id doc) u d = false).
  { intros d Hin. destruct (ownedBy (id doc) u d) eqn:E; [| reflexivity].
    apply ownedBy_iff in E. exfalso. apply (Hfresh d Hin), E. }
  assert (Hnew : ownedBy (id doc) u doc = true) by (apply ownedBy_iff; auto).
  assert (Hdeleted : filter (ownedBy (id doc) u) (documents (db w')) = [doc]).
  { rewrite Hd, filter_app, (filter_none _ _ Hold). simpl. rewrite Hnew. reflexivity. }
  split.
  - rewrite Hd, filter_app. simpl. rewrite Hnew. simpl. rewrite app_nil_r.
    apply filter_all. intros d Hin. rewrite (Hold d Hin). reflexivity.
  - rewrite Hdeleted, Hc, filter_app.
    rewrite (filter_all _ (chunks (db w))).
    + rewrite filter_none; [apply app_nil_r |].
      intros c Hin. apply in_map_iff in Hin. destruct Hin as (c0 & <- & _).
      simpl. rewrite String.eqb_refl. reflexivity.
    + intros c Hin. simpl. rewrite orb_false_r.
      destruct (id doc =? row_documentId c) eqn:E; [| reflexivity].
      apply String.eqb_eq in E. destruct (Hfk c Hin) as (d & Hd' & Hid).
      exfalso. apply (Hfresh d Hd'). congruence.
Qed.

(** The file "hello" is added to the store of the demo world and deleted
    again. *)
Lemma addDocument_then_deleteDocument_witness :
  exists doc w' w'',
    addDocument (demoPlatform 384) (list_byte_of_string "hello") "a.txt" "txt" "A" "u1"
      (u2World (Some "u1")) = (Ok doc, w') /\
    deleteDocument (id doc) "u1" w' = (Ok tt, w'') /\
    documents (db w'') = [u2Document] /\ chunks (db w'') = [u2Chunk].
Proof.
  destruct (addDocument (demoPlatform 384) (list_byte_of_string "hello") "a.txt" "txt" "A" "u1"
              (u2World (Some "u1"))) as [r w'] eqn:Hrun.
  assert (Hr : exists doc, r = Ok doc).
  { vm_compute in Hrun. injection Hrun as <- _. eexists. reflexivity. }
  destruct Hr as (doc & ->).
  assert (Hfk : referentialIntegrity (db (u2World (Some "u1")))).
  { intros c [<- | []]. exists u2Document. split; [left |]; reflexivity. }
  destruct (addDocument_then_deleteDocument (demoPlatform 384) _ _ _ _ _ _ _ _ Hfk Hrun)
    as (w'' & Hdel & Hd & Hc).
  exists doc, w', w''. auto.
Defined.

(* ================================================================== *)
(** * More on reprocessing and deletion                                *)
(* ================================================================== *)





(* ================================================================== *)
(** * What a search leaves alone                                       *)
(* ================================================================== *)

Lemma skipn_tl {A : Type} (k : nat) (l : list A) : skipn k (tl l) = skipn (S k) l.
Proof. destruct l; [destruct k |]; reflexivity. Qed.

(** The loop of [embedQuery] makes at most one call per model. *)
Lemma embedQueryLoop_calls (models : list string) (query : string) (w w' : World)
  (r : Result (list Q)) :
  embedQueryLoop models query w = (r, w') ->
  exists k, k <= length models /\ hf w' = skipn k (hf w).
Proof.
  revert w. induction models as [| model rest IH]; intros w H; simpl in H.
  - injection H as _ <-. exists 0. split; [lia | reflexivity].
  - destruct (featureExtraction_run model query w) as (r0 & Hr & _).
    unfold tryCatch, bind in H. rewrite Hr in H. destruct r0 as [out | e].
    + injection H as _ <-. exists 1. split; [simpl; lia |].
      simpl. destruct (hf w); reflexivity.
    + destruct (IH _ H) as (k & Hk & Hhf). exists (S k). split; [simpl; lia |].
      rewrite Hhf. simpl hf. apply skipn_tl.
Qed.

(** X11.  A search never writes: whatever [searchSimilar] or the search
    tool returns or throws, the database and the session are as before, and
    at most three calls of the embedding backend have been made. *)
Theorem search_never_writes (P : Platform) (query : string) (limit : Z) (w : World) :
  (forall thr u r w',
     searchSimilar P query limit thr u w = (r, w') ->
     db w' = db w /\ session w' = session w /\
     exists k, k <= 3 /\ hf w' = skipn k (hf w)) /\
  (forall out w',
     execute P query limit w = (out, w') ->
     db w' = db w /\ session w' = session w /\
     exists k, k <= 3 /\ hf w' = skipn k (hf w)).
Proof.
  assert (Hs : forall thr u r w',
             searchSimilar P query limit thr u w = (r, w') ->
             db w' = db w /\ session w' = session w /\
             exists k, k <= 3 /\ hf w' = skipn k (hf w)).
  { intros thr u r w' H.
    destruct (searchSimilar_run P query limit thr u w) as (qe & w1 & Hq & [Hdb Hse] & Hrun).
    assert (Hw : w' = w1).
    { rewrite Hrun in H. destruct (limit <? 0)%Z; injection H as _ <-; reflexivity. }
    subst w'. split; [exact Hdb |]. split; [exact Hse |].
    unfold embedQuery, tryCatch in Hq.
    destruct (embedQueryLoop MODELS query w) as [[v | e] w2] eqn:E;
      injection Hq as _ <-; apply (embedQueryLoop_calls _ _ _ _ _ E). }
  split; [exact Hs |].
  intros out w' H. unfold execute, tryCatch, bind, auth in H.
  assert (Hsame : forall s : AuthOutcome,
            db w = db w /\ s = s /\ exists k, k <= 3 /\ hf w = skipn k (hf w)).
  { intros s. split; [reflexivity |]. split; [reflexivity |].
    exists 0. split; [lia | reflexivity]. }
  destruct (session w) as [e | uid] eqn:Hsess.
  - injection H as _ <-. rewrite Hsess. apply Hsame.
  - destruct (negb (JS.truthy uid)).
    + injection H as _ <-. rewrite Hsess. apply Hsame.
    + destruct (searchSimilar P query limit (2 # 10)%Q uid w) as [[rs | e] w1] eqn:E.
      * destruct (length rs =? 0)%nat; injection H as _ <-; apply (Hs _ _ _ _ E).
      * injection H as _ <-. apply (Hs _ _ _ _ E).
Qed.

(* ================================================================== *)
(** * More on the search tool                                          *)
(* ================================================================== *)

Lemma seen_iff (x : string) (seen : list string) :
  existsb (String.eqb x) seen = true <-> In x seen.
Proof.
  rewrite existsb_exists. split.
  - intros (y & Hy & He). apply String.eqb_eq in He. subst. exact Hy.
  - intros H. exists x. split; [exact H | apply String.eqb_refl].
Qed.

Lemma uniq_In (xs seen : list string) (x : string) :
  In x (JS.uniq seen xs) <-> In x xs /\ ~ In x seen.
Proof.
  revert seen. induction xs as [| y r IH]; intros seen; simpl; [tauto |].
  destruct (existsb (String.eqb y) seen) eqn:E.
  - apply seen_iff in E. rewrite IH. split.
    + intros [H1 H2]. auto.
    + intros [[-> | H1] H2]; [contradiction | auto].
  - assert (Hy : ~ In y seen) by (intros H; apply seen_iff in H; congruence).
    simpl. rewrite IH. simpl. split.
    + intros [<- | [H1 H2]]; [auto |]. split; [auto |]. intros H. apply H2. auto.
    + intros [[<- | H1] H2]; [auto |].
      destruct (string_dec y x) as [-> | Hne]; [auto |].
      right. split; [exact H1 |]. intros [H | H]; auto.
Qed.

Lemma uniq_NoDup (xs seen : list string) : NoDup (JS.uniq seen xs).
Proof.
  revert seen. induction xs as [| y r IH]; intros seen; simpl; [constructor |].
  destruct (existsb (String.eqb y) seen); [apply IH |].
  constructor; [| apply IH]. intros H. apply uniq_In in H.
  destruct H as [_ H]. apply H. left. reflexivity.
Qed.

(** What an answer of [execute] is: a failure without results, or the
    answer built from the non-empty results of the search made for the
    signed-in user. *)
Lemma execute_Ok_inv (P : Platform) (query : string) (limit : Z) (w w' : World)
  (out : ToolOutput) :
  execute P query limit w = (Ok out, w') ->
  (success out = false /\ results out = []) \/
  (exists uid rs,
     session w = authSession (Some uid) /\ uid <> "" /\
     searchSimilar P query limit (2 # 10)%Q (Some uid) w = (Ok rs, w') /\
     rs <> [] /\ out = found rs).
Proof.
  unfold execute, tryCatch, bind, auth. intros H.
  destruct (session w) as [e | [uid |]] eqn:Hs.
  - injection H as <- _. left. split; reflexivity.
  - simpl in H. destruct (uid =? "") eqn:E; simpl in H.
    + injection H as <- _. left. split; reflexivity.
    + destruct (searchSimilar P query limit (2 # 10)%Q (Some uid) w) as [[rs | e] w1] eqn:Hrun.
      * destruct rs as [| r0 rs]; simpl in H; injection H as <- <-.
        -- left. split; reflexivity.
        -- right. exists uid, (r0 :: rs). apply String.eqb_neq in E.
           repeat split; try assumption; try reflexivity. discriminate.
      * injection H as <- _. left. split; reflexivity.
  - simpl in H. injection H as <- _. left. split; reflexivity.
Qed.

(** The rows behind the results of a search made for a non-empty owner. *)
Lemma searchSimilar_owned (P : Platform) (query : string) (limit : Z) (thr : Q)
  (owner : string) (w w' : World) (rs : list SearchResult) :
  owner <> "" ->
  searchSimilar P query limit thr (Some owner) w = (Ok rs, w') ->
  Forall (fun r => userId (document r) = owner /\
                   In (chunk r) (chunks (db w)) /\ In (document r) (documents (db w)) /\
                   row_documentId (chunk r) = id (document r)) rs /\
  StronglySorted (fun a b => bySimilarityDesc a b = true) rs.
Proof.
  intros Hne Hrun.
  destruct (searchSimilar_Ok_inv _ _ _ _ _ _ _ _ Hrun) as (qe & _ & _ & _ & ->). split.
  - apply Forall_forall. intros r Hr.
    apply firstn_In, sortBy_In, in_map_iff in Hr.
    destruct Hr as ([c d] & <- & Hrow). apply filter_In in Hrow.
    destruct Hrow as [Hj Hc]. apply innerJoin_In in Hj.
    apply (whereConditions_owner P qe thr owner (c, d) Hne) in Hc. simpl in *. tauto.
  - apply StronglySorted_firstn, sortBy_sorted;
      [apply bySimilarityDesc_total | apply bySimilarityDesc_trans].
Qed.

Lemma mapi_ranks (k : nat) (rs : list SearchResult) :
  map tr_rank (mapi toolResult k rs) = seq (k + 1) (length rs).
Proof.
  revert k. induction rs as [| r rs IH]; intros k; simpl; [reflexivity |].
  f_equal. rewrite IH. reflexivity.
Qed.

Lemma mapi_toolResult_map (k : nat) (rs : list SearchResult) :
  map tr_similarity (mapi toolResult k rs)
    = map (fun r => JS.Math_round (similarity r * 100)%Q) rs.
Proof.
  revert k. induction rs as [| r rs IH]; intros k; simpl; [reflexivity |].
  f_equal. apply IH.
Qed.

Lemma mapi_sources (k : nat) (rs : list SearchResult) :
  map tr_source (mapi toolResult k rs) = map (fun r => title (document r)) rs.
Proof.
  revert k. induction rs as [| r rs IH]; intros k; simpl; [reflexivity |].
  f_equal. apply IH.
Qed.

Lemma Math_round_percent_mono (x y : Q) :
  (x <= y)%Q -> (JS.Math_round (x * 100) <= JS.Math_round (y * 100))%Z.
Proof.
  intros H. unfold JS.Math_round. apply Qfloor_resp_le.
  apply Qplus_le_compat; [| apply Qle_refl].
  apply Qmult_le_compat_r; [exact H | discriminate].
Qed.

Lemma StronglySorted_of_map {A B : Type} (S : B -> B -> Prop) (f : A -> B) (l : list A) :
  StronglySorted S (map f l) -> StronglySorted (fun a b => S (f a) (f b)) l.
Proof.
  induction l as [| x r IH]; intros H; [constructor |].
  simpl in H. inversion H as [| y m Hr Hx]; subst.
  constructor; [apply IH, Hr |].
  rewrite Forall_forall in *. intros b Hb. apply Hx, in_map, Hb.
Qed.

(** X12.  The search tool keeps the tenants apart without any condition: in
    every successful answer, each entry is the content of a stored chunk of a
    document that belongs to the signed-in user, with the title and the
    filename of that document. *)
Theorem execute_scoped_to_session (P : Platform) (query : string) (limit : Z)
  (w w' : World) (out : ToolOutput) :
  execute P query limit w = (Ok out, w') ->
  success out = true ->
  exists uid,
    session w = authSession (Some uid) /\
    Forall (fun entry =>
              exists c d,
                In c (chunks (db w)) /\ In d (documents (db w)) /\
                row_documentId c = id d /\ userId d = uid /\
                tr_content entry = row_content c /\
                tr_source entry = title d /\ tr_filename entry = filename d)
           (results out).
Proof.
  intros H Hsucc.
  destruct (execute_Ok_inv _ _ _ _ _ _ H) as [[Hf _] | (uid & rs & Hs & Hne & Hrun & _ & ->)];
    [congruence |].
  exists uid. split; [exact Hs |].
  destruct (searchSimilar_owned _ _ _ _ _ _ _ _ Hne Hrun) as [Hown _].
  unfold found. simpl. clear Hrun H Hsucc.
  generalize 0 as k. induction Hown as [| r rs' Hr Hrs IH]; intros k; simpl; constructor.
  - exists (chunk r), (document r). simpl. tauto.
  - apply IH.
Qed.

(** The user [u2] asks for the text of the stored chunk. *)
Lemma execute_scoped_to_session_witness :
  exists out w',
    execute (demoPlatform 384) "hello" 10 (u2World (Some "u2")) = (Ok out, w') /\
    map tr_source (results out) = ["Rules"] /\
    session (u2World (Some "u2")) = authSession (Some "u2").
Proof.
  destruct (execute (demoPlatform 384) "hello" 10 (u2World (Some "u2"))) as [r w'] eqn:Hrun.
  assert (Hr : exists out, r = Ok out /\ success out = true /\
                           map tr_source (results out) = ["Rules"]).
  { vm_compute in Hrun. injection Hrun as <- _. eexists. repeat split. }
  destruct Hr as (out & -> & Hsucc & Hsrc).
  destruct (execute_scoped_to_session _ _ _ _ _ _ Hrun Hsucc) as (uid & Hs & _).
  exists out, w'. split; [reflexivity |]. split; [exact Hsrc | reflexivity].
Defined.

(** X13.  In every successful answer of the search tool the ranks are 1, 2,
    3, ... and the integer percentages do not increase with the rank; the
    list of sources holds the title of every result once, and [totalChunks]
    is the number of results. *)
Theorem execute_ranks_and_sources (P : Platform) (query : string) (limit : Z)
  (w w' : World) (out : ToolOutput) :
  execute P query limit w = (Ok out, w') ->
  success out = true ->
  map tr_rank (results out) = seq 1 (length (results out)) /\
  StronglySorted (fun a b => (tr_similarity b <= tr_similarity a)%Z) (results out) /\
  out_totalChunks out = Some (length (results out)) /\
  exists sources,
    out_sources out = Some sources /\ NoDup sources /\
    forall t, In t sources <-> In t (map tr_source (results out)).
Proof.
  intros H Hsucc.
  destruct (execute_Ok_inv _ _ _ _ _ _ H) as [[Hf _] | (uid & rs & Hs & Hne & Hrun & _ & ->)];
    [congruence |].
  destruct (searchSimilar_owned _ _ _ _ _ _ _ _ Hne Hrun) as [_ Hsorted].
  unfold found. simpl. rewrite mapi_length.
  split; [apply mapi_ranks |]. split; [| split; [reflexivity |]].
  - apply StronglySorted_of_map with (f := tr_similarity)
                                     (S := fun a b => (b <= a)%Z).
    rewrite mapi_toolResult_map.
    apply (StronglySorted_map (fun a b => bySimilarityDesc a b = true)); [| exact Hsorted].
    intros a b Hab. apply Math_round_percent_mono. apply Qle_bool_iff, Hab.
  - eexists. split; [reflexivity |]. split; [apply uniq_NoDup |].
    intros t. rewrite uniq_In.
    rewrite mapi_sources. simpl. tauto.
Qed.

(** The answer to the user [u2] has one entry, of rank 1 and of 100 per
    cent. *)
Lemma execute_ranks_and_sources_witness :
  exists out w',
    execute (demoPlatform 384) "hello" 10 (u2World (Some "u2")) = (Ok out, w') /\
    map tr_rank (results out) = [1] /\ map tr_similarity (results out) = [100%Z].
Proof.
  destruct (execute (demoPlatform 384) "hello" 10 (u2World (Some "u2"))) as [r w'] eqn:Hrun.
  assert (Hr : exists out, r = Ok out /\ success out = true /\ length (results out) = 1 /\
                           map tr_similarity (results out) = [100%Z]).
  { vm_compute in Hrun. injection Hrun as <- _. eexists. repeat split. }
  destruct Hr as (out & -> & Hsucc & Hlen & Hsim).
  destruct (execute_ranks_and_sources _ _ _ _ _ _ Hrun Hsucc) as (Hranks & _).
  exists out, w'. split; [reflexivity |]. split; [| exact Hsim].
  rewrite Hranks, Hlen. reflexivity.
Defined.

(* ================================================================== *)
(** * The HTTP routes                                                  *)
(* ================================================================== *)

Lemma auth_signedIn (w : World) (uid : string) :
  session w = authSession (Some uid) -> auth w = (Ok (Some uid), w).
Proof. intros H. unfold auth. rewrite H. reflexivity. Qed.

Lemma truthy_Some (uid : string) : uid <> "" -> JS.truthy (Some uid) = true.
Proof. intros H. apply String.eqb_neq in H. unfold JS.truthy. rewrite H. reflexivity. Qed.

Lemma truthy_inv (u : option string) :
  JS.truthy u = true -> exists uid, u = Some uid /\ uid <> "".
Proof.
  destruct u as [uid |]; simpl; [| discriminate]. intros H. exists uid.
  split; [reflexivity |]. apply String.eqb_neq. apply negb_true_iff, H.
Qed.

(** Without a signed-in user every route answers 401 and does nothing. *)
Lemma routes_signedOut (P : Platform) (w : World) (u : option string) :
  session w = authSession u -> JS.truthy u = false ->
  let unauthorized := (Ok {| status := 401; body := errorBody "Unauthorized" |}, w) in
  (forall formData, uploadPOST P formData w = unauthorized) /\
  documentsGET w = unauthorized /\
  (forall idParam, documentsDELETE idParam w = unauthorized) /\
  (forall json, reprocessPOST P json w = unauthorized).
Proof.
  intros Hs Ht. unfold uploadPOST, documentsGET, documentsDELETE, reprocessPOST,
    tryCatch, bind, auth.
  rewrite Hs, Ht. simpl. repeat split.
Qed.

(** When [auth()] throws every route answers 500 and does nothing. *)
Lemma routes_authThrows (P : Platform) (w : World) (e : Error) :
  session w = authThrows e ->
  (forall formData, uploadPOST P formData w
     = (Ok {| status := 500; body := errorBody "Failed to upload document" |}, w)) /\
  documentsGET w = (Ok {| status := 500; body := errorBody "Failed to fetch documents" |}, w) /\
  (forall idParam, documentsDELETE idParam w
     = (Ok {| status := 500; body := errorBody "Failed to delete document" |}, w)) /\
  (forall json, reprocessPOST P json w
     = (Ok {| status := 500; body := errorBody "Failed to reprocess document" |}, w)).
Proof.
  intros Hs. unfold uploadPOST, documentsGET, documentsDELETE, reprocessPOST,
    tryCatch, bind, auth.
  rewrite Hs. simpl. repeat split.
Qed.

(** The kinds that [getFileType] gives for the MIME types of the list. *)
Lemma getFileType_supported (mime : string) (w : World) :
  existsb (String.eqb mime) supportedTypes = true ->
  exists kind,
    getFileType mime w = (Ok kind, w) /\
    ((mime = "application/pdf" /\ kind = "pdf") \/
     (mime = "text/plain" /\ kind = "txt") \/
     (prefix "image/" mime = true /\ kind = "image")).
Proof.
  intros H. apply seen_iff in H. unfold supportedTypes in H. simpl in H.
  destruct H as [<- | [<- | [<- | [<- | [<- | []]]]]]; eexists; (split; [reflexivity |]); auto.
Qed.

(** The upload route for a signed-in user and a form with a file. *)
Lemma uploadPOST_signedIn (P : Platform) (form : UploadForm) (file : File) (uid : string)
  (w : World) :
  session w = authSession (Some uid) -> uid <> "" -> form_file form = Some file ->
  uploadPOST P (Some form) w =
    if negb (existsb (String.eqb (file_type file)) supportedTypes)
    then (Ok {| status := 400;
                body := errorBody
                  "Unsupported file type. Please upload PDF, TXT, or image files." |}, w)
    else if (file_size file >? maxSize)%Z
    then (Ok {| status := 400; body := errorBody "File too large. Maximum size is 10MB." |}, w)
    else
      match getFileType (file_type file) w with
      | (Ok kind, w1) =>
          match addDocument P (file_bytes file) (file_name file) kind
                  (if JS.truthy (form_title form)
                   then match form_title form with Some t => t | None => "" end
                   else file_name file) uid w1 with
          | (Ok doc, w2) => (Ok {| status := 200; body := uploadedBody (summary doc) |}, w2)
          | (Throw _, w2) =>
              (Ok {| status := 500; body := errorBody "Failed to upload document" |}, w2)
          end
      | (Throw _, w1) =>
          (Ok {| status := 500; body := errorBody "Failed to upload document" |}, w1)
      end.
Proof.
  intros Hs Hne Hfile. unfold uploadPOST, tryCatch, bind.
  rewrite (auth_signedIn _ _ Hs), (truthy_Some _ Hne). cbn [negb ret]. rewrite Hfile.
  destruct (negb (existsb (String.eqb (file_type file)) supportedTypes)); [reflexivity |].
  destruct (file_size file >? maxSize)%Z; [reflexivity |].
  destruct (getFileType (file_type file) w) as [[kind | e] w1]; [| reflexivity].
  destruct (addDocument P _ _ _ _ _ w1) as [[doc | e] w2]; reflexivity.
Qed.

Lemma guarded_signedIn (route : M Response) (w w' : World) (resp : Response) (uid : string) :
  session w = authSession (Some uid) -> uid <> "" ->
  route w = (Ok resp, w') ->
  status resp = 200 \/ status resp = 500 \/ (status resp = 400 /\ w' = w) ->
  guarded route w.
Proof.
  intros Hs Hne Hrun Hst. exists resp, w'. split; [exact Hrun |].
  assert (Hout : ~ signedOut w).
  { intros (u & Hu & Ht). rewrite Hs in Hu. injection Hu as <-.
    rewrite (truthy_Some _ Hne) in Ht. discriminate. }
  split; [| split].
  - simpl. destruct Hst as [-> | [-> | [-> _]]]; auto.
  - split; [| intros H; contradiction].
    intros H. destruct Hst as [H' | [H' | [H' _]]]; rewrite H' in H; discriminate.
  - intros [H | H]; destruct Hst as [H' | [H' | [H' Hw]]];
      try (rewrite H' in H; discriminate). exact Hw.
Qed.


Ltac answer run :=
  eapply guarded_signedIn;
  [ eassumption | eassumption | run
  | simpl; first [ left; reflexivity | right; left; reflexivity
                 | right; right; split; reflexivity ] ].

(** X14.  The four routes never throw: each always answers, with status 200,
    400, 401 or 500.  Each answers 401 exactly when no user is signed in, and
    an answer 400 or 401 comes with the database, the session and the
    embedding backend untouched. *)
Theorem routes_guarded (P : Platform) (w : World) :
  (forall formData, guarded (uploadPOST P formData) w) /\
  guarded documentsGET w /\
  (forall idParam, guarded (documentsDELETE idParam) w) /\
  (forall json, guarded (reprocessPOST P json) w).
Proof.
  destruct (session w) as [e | u] eqn:Hs.
  - destruct (routes_authThrows P w e Hs) as (H1 & H2 & H3 & H4).
    assert (Hout : ~ signedOut w).
    { intros (u & Hu & _). congruence. }
    repeat split; intros; eexists; eexists;
      (split; [solve [apply H1 | apply H2 | apply H3 | apply H4] |]); simpl;
      (split; [tauto |]); (split; [split; [discriminate | contradiction] |]);
      intros [H | H]; discriminate.
  - destruct (JS.truthy u) eqn:Ht.
    + destruct (truthy_inv _ Ht) as (uid & -> & Hne).
      pose proof (auth_signedIn _ _ Hs) as Ha.
      split; [| split; [| split]].
      * intros [form |].
        -- destruct (form_file form) as [file |] eqn:Hfile.
           ++ pose proof (uploadPOST_signedIn P form file uid w Hs Hne Hfile) as Hrun.
              destruct (negb _);
                [answer ltac:(exact Hrun) |].
              destruct (file_size file >? maxSize)%Z;
                [answer ltac:(exact Hrun) |].
              destruct (getFileType (file_type file) w) as [[kind | e] w1];
                [| answer ltac:(exact Hrun)].
              destruct (addDocument P _ _ _ _ _ w1) as [[doc | e] w2];
                (answer ltac:(exact Hrun)).
           ++ answer ltac:(
                unfold uploadPOST, tryCatch, bind; rewrite Ha, (truthy_Some _ Hne); cbn [negb ret];
                rewrite Hfile; reflexivity).
        -- answer ltac:(
             unfold uploadPOST, tryCatch, bind; rewrite Ha, (truthy_Some _ Hne); reflexivity).
      * answer ltac:(
          unfold documentsGET, tryCatch, bind; rewrite Ha, (truthy_Some _ Hne); reflexivity).
      * intros idParam. destruct (JS.truthy idParam) eqn:Hi.
        -- answer ltac:(
             unfold documentsDELETE, tryCatch, bind; rewrite Ha, (truthy_Some _ Hne), Hi;
             cbn [negb]; rewrite deleteDocument_run; reflexivity).
        -- answer ltac:(
             unfold documentsDELETE, tryCatch, bind; rewrite Ha, (truthy_Some _ Hne), Hi;
             reflexivity).
      * intros [documentId |].
        -- destruct (JS.truthy documentId) eqn:Hi.
           ++ destruct (reprocessDocument P
                          (match documentId with Some i => i | None => "" end) uid w)
                as [[[] | e] w1] eqn:Hrun.
              ** answer ltac:(
                   unfold reprocessPOST, tryCatch, bind; rewrite Ha, (truthy_Some _ Hne);
                   cbn [negb ret]; rewrite Hi; cbn [negb]; rewrite Hrun; reflexivity).
              ** answer ltac:(
                   unfold reprocessPOST, tryCatch, bind; rewrite Ha, (truthy_Some _ Hne);
                   cbn [negb ret]; rewrite Hi; cbn [negb]; rewrite Hrun; reflexivity).
           ++ answer ltac:(
                unfold reprocessPOST, tryCatch, bind; rewrite Ha, (truthy_Some _ Hne);
                cbn [negb ret]; rewrite Hi; reflexivity).
        -- answer ltac:(
             unfold reprocessPOST, tryCatch, bind; rewrite Ha, (truthy_Some _ Hne); reflexivity).
    + destruct (routes_signedOut P w u Hs Ht) as (H1 & H2 & H3 & H4).
      assert (Hout : signedOut w) by (exists u; split; assumption).
      repeat split; intros; eexists; eexists;
        (split; [solve [apply H1 | apply H2 | apply H3 | apply H4] |]); simpl;
        (split; [tauto |]); (split; [tauto |]); reflexivity.
Qed.

(** What the upload route has done when it answers 200. *)
Lemma uploadPOST_200_inv (P : Platform) (formData : option UploadForm) (w w' : World)
  (resp : Response) :
  uploadPOST P formData w = (Ok resp, w') -> status resp = 200 ->
  exists uid form file kind doc,
    session w = authSession (Some uid) /\ uid <> "" /\
    formData = Some form /\ form_file form = Some file /\
    existsb (String.eqb (file_type file)) supportedTypes = true /\
    (file_size file <= maxSize)%Z /\
    getFileType (file_type file) w = (Ok kind, w) /\
    addDocument P (file_bytes file) (file_name file) kind
      (if JS.truthy (form_title form)
       then match form_title form with Some t => t | None => "" end
       else file_name file) uid w = (Ok doc, w') /\
    body resp = uploadedBody (summary doc).
Proof.
  intros Hrun H200.
  destruct (session w) as [e | u] eqn:Hs.
  { destruct (routes_authThrows P w e Hs) as (H1 & _). rewrite H1 in Hrun.
    injection Hrun as <- _. discriminate. }
  destruct (JS.truthy u) eqn:Ht.
  2:{ destruct (routes_signedOut P w u Hs Ht) as (H1 & _). rewrite H1 in Hrun.
      injection Hrun as <- _. discriminate. }
  destruct (truthy_inv _ Ht) as (uid & -> & Hne).
  pose proof (auth_signedIn _ _ Hs) as Ha.
  destruct formData as [form |].
  2:{ unfold uploadPOST, tryCatch, bind in Hrun. rewrite Ha, Ht in Hrun.
      injection Hrun as <- _. discriminate. }
  destruct (form_file form) as [file |] eqn:Hfile.
  2:{ unfold uploadPOST, tryCatch, bind in Hrun. rewrite Ha, Ht in Hrun.
      cbn [negb ret] in Hrun. rewrite Hfile in Hrun.
      injection Hrun as <- _. discriminate. }
  rewrite (uploadPOST_signedIn P form file uid w Hs Hne Hfile) in Hrun.
  destruct (existsb (String.eqb (file_type file)) supportedTypes) eqn:Hty; cbn [negb] in Hrun.
  2:{ injection Hrun as <- _. discriminate. }
  destruct (file_size file >? maxSize)%Z eqn:Hsz.
  { injection Hrun as <- _. discriminate. }
  destruct (getFileType_supported _ w Hty) as (kind & Hk & _). rewrite Hk in Hrun.
  destruct (addDocument P _ _ _ _ _ w) as [[doc | e] w2] eqn:Hadd.
  2:{ injection Hrun as <- _. discriminate. }
  injection Hrun as <- <-.
  exists uid, form, file, kind, doc. repeat split; try assumption; try reflexivity.
  rewrite Z.gtb_ltb in Hsz. apply Z.ltb_ge in Hsz. exact Hsz.
Qed.

(** X15.  An upload that is answered with 200 has stored exactly one new
    document; its owner is the signed-in user, never a value of the form; its
    title is the title of the form, or the name of the file when the form has
    no title or an empty one; its size is the number of bytes of the file;
    and the answer is the summary of that row. *)
Theorem uploadPOST_stores_for_session_user (P : Platform) (formData : option UploadForm)
  (w w' : World) (resp : Response) :
  uploadPOST P formData w = (Ok resp, w') -> status resp = 200 ->
  exists form file d,
    formData = Some form /\ form_file form = Some file /\
    documents (db w') = documents (db w) ++ [d] /\
    body resp = uploadedBody (summary d) /\
    session w = authSession (Some (userId d)) /\
    filename d = file_name file /\
    fileSize d = Some (length (file_bytes file)) /\
    (forall t, form_title form = Some t -> t <> "" -> title d = t) /\
    (form_title form = None \/ form_title form = Some "" -> title d = file_name file).
Proof.
  intros Hrun H200.
  destruct (uploadPOST_200_inv _ _ _ _ _ Hrun H200)
    as (uid & form & file & kind & doc & Hs & Hne & -> & Hfile & _ & _ & _ & Hadd & Hbody).
  destruct (addDocument_Ok_inv _ _ _ _ _ _ _ _ _ Hadd) as (pd & w1 & Hp & Hdoc & _ & _ & Hd & _).
  exists form, file, doc. repeat split; try assumption.
  - rewrite Hdoc. exact Hs.
  - rewrite Hdoc. reflexivity.
  - rewrite Hdoc. simpl. unfold processDocument, bind in Hp.
    destruct (extractContent P (file_bytes file) kind w) as [[text | e] w2]; [| discriminate].
    destruct (createChunks P text (file_name file) w2) as [[cs | e] w3]; [| discriminate].
    injection Hp as <- _. reflexivity.
  - intros t Ht Hnt. rewrite Hdoc, Ht. simpl.
    apply String.eqb_neq in Hnt. rewrite Hnt. reflexivity.
  - intros [Ht | Ht]; rewrite Hdoc, Ht; reflexivity.
Qed.

(** The user [u1] uploads a small text file without a title. *)
Lemma uploadPOST_stores_for_session_user_witness :
  exists resp w',
    uploadPOST (demoPlatform 384) (Some {| form_file := Some helloFile; form_title := None |})
      (offlineWorld "u1") = (Ok resp, w') /\
    status resp = 200 /\ map title (documents (db w')) = ["a.txt"].
Proof.
  destruct (uploadPOST (demoPlatform 384)
              (Some {| form_file := Some helloFile; form_title := None |})
              (offlineWorld "u1")) as [r w'] eqn:Hrun.
  assert (Hr : exists resp, r = Ok resp /\ status resp = 200).
  { vm_compute in Hrun. injection Hrun as <- _. eexists. split; reflexivity. }
  destruct Hr as (resp & -> & H200).
  destruct (uploadPOST_stores_for_session_user _ _ _ _ _ Hrun H200)
    as (form & file & d & Hform & Hfile & Hdocs & _ & _ & _ & _ & _ & Htitle).
  injection Hform as <-. simpl in Hfile. injection Hfile as <-.
  exists resp, w'. split; [reflexivity |]. split; [exact H200 |].
  rewrite Hdocs. simpl. rewrite (Htitle (or_introl eq_refl)). reflexivity.
Defined.

(** X16.  The MIME types that the upload route lets through are exactly
    served by the processor: for each of them [getFileType] returns, and the
    kind it returns selects one of the three extractions of
    [processDocument], never its branch for unsupported kinds. *)
Theorem supportedTypes_are_processable (P : Platform) (mime : string) (buffer : Buffer)
  (w : World) :
  existsb (String.eqb mime) supportedTypes = true ->
  exists kind,
    getFileType mime w = (Ok kind, w) /\
    ((mime = "application/pdf" /\ kind = "pdf" /\
      extractContent P buffer kind = processPDF P buffer) \/
     (mime = "text/plain" /\ kind = "txt" /\
      extractContent P buffer kind = ret (Buffer_toString P buffer)) \/
     (prefix "image/" mime = true /\ kind = "image" /\
      extractContent P buffer kind = processImage P buffer)).
Proof.
  intros H. destruct (getFileType_supported mime w H) as (kind & Hk & Hcase).
  exists kind. split; [exact Hk |].
  destruct Hcase as [[-> ->] | [[-> ->] | [Hp ->]]].
  - left. repeat split.
  - right. left. repeat split.
  - right. right. repeat split. exact Hp.
Qed.

Lemma supportedTypes_are_processable_witness :
  exists kind,
    getFileType "image/webp" (offlineWorld "u1") = (Ok kind, offlineWorld "u1") /\
    extractContent (demoPlatform 384) [] kind = processImage (demoPlatform 384) [].
Proof.
  destruct (supportedTypes_are_processable (demoPlatform 384) "image/webp" []
              (offlineWorld "u1") eq_refl) as (kind & Hk & Hcase).
  exists kind. split; [exact Hk |].
  destruct Hcase as [(Hm & _) | [(Hm & _) | (_ & _ & He)]];
    [discriminate Hm | discriminate Hm | exact He].
Defined.

Lemma documentsGET_signedIn (w : World) (uid : string) :
  session w = authSession (Some uid) -> uid <> "" ->
  documentsGET w =
    (Ok {| status := 200;
           body := documentsBody
                     (sortBy byUploadedAtDesc
                        (filter (fun r => userId r =? uid) (documents (db w)))) |}, w).
Proof.
  intros Hs Hne. unfold documentsGET, tryCatch, bind.
  rewrite (auth_signedIn _ _ Hs), (truthy_Some _ Hne). reflexivity.
Qed.

(** X17.  Upload, then list: after an upload answered with 200, the listing
    route answers 200 for the same session, and its rows are the uploaded
    document together with the documents that the user had before; the
    document of the upload answer is among them. *)
Theorem upload_then_list (P : Platform) (formData : option UploadForm) (w w' : World)
  (resp : Response) :
  uploadPOST P formData w = (Ok resp, w') -> status resp = 200 ->
  exists rows d,
    documentsGET w' = (Ok {| status := 200; body := documentsBody rows |}, w') /\
    body resp = uploadedBody (summary d) /\
    session w' = authSession (Some (userId d)) /\
    (forall r, In r rows <->
               r = d \/ (In r (documents (db w)) /\ userId r = userId d)).
Proof.
  intros Hrun H200.
  destruct (uploadPOST_200_inv _ _ _ _ _ Hrun H200)
    as (uid & form & file & kind & doc & Hs & Hne & _ & _ & _ & _ & _ & Hadd & Hbody).
  destruct (addDocument_Ok_inv _ _ _ _ _ _ _ _ _ Hadd)
    as (pd & w1 & _ & Hdoc & _ & Hsess & Hd & _).
  assert (Hu : userId doc = uid) by (rewrite Hdoc; reflexivity).
  assert (Hs' : session w' = authSession (Some uid)) by congruence.
  eexists. exists doc. split; [apply (documentsGET_signedIn w' uid Hs' Hne) |].
  split; [exact Hbody |]. split; [rewrite Hu; exact Hs' |].
  intros r. rewrite sortBy_In, filter_In, Hd, in_app_iff, String.eqb_eq, Hu. simpl.
  split.
  - intros [[H | [H | []]] Hr]; [right; split; assumption | left; symmetry; exact H].
  - intros [-> | [H Hr]]; [split; [right; left; reflexivity | exact Hu] | split; [left; exact H | exact Hr]].
Qed.

Lemma upload_then_list_witness :
  exists resp w' rows,
    uploadPOST (demoPlatform 384) (Some (clientForm helloFile)) (offlineWorld "u1")
      = (Ok resp, w') /\
    documentsGET w' = (Ok {| status := 200; body := documentsBody rows |}, w') /\
    rows <> [].
Proof.
  destruct (uploadPOST (demoPlatform 384) (Some (clientForm helloFile)) (offlineWorld "u1"))
    as [r w'] eqn:Hrun.
  assert (Hr : exists resp, r = Ok resp /\ status resp = 200).
  { vm_compute in Hrun. injection Hrun as <- _. eexists. split; reflexivity. }
  destruct Hr as (resp & -> & H200).
  destruct (upload_then_list _ _ _ _ _ Hrun H200) as (rows & d & Hget & _ & _ & Hrows).
  exists resp, w', rows. split; [reflexivity |]. split; [exact Hget |].
  intros Hnil. assert (Hd : In d rows) by (apply Hrows; left; reflexivity).
  rewrite Hnil in Hd. exact Hd.
Defined.




(** X19.  The checks of the upload component and those of the upload route
    agree: for a signed-in user, the component refuses a file with some
    message exactly when the route would answer 400 with that message; and a
    file that the component posts is answered with 200 or 500, and is stored
    under its file name as title when the answer is 200. *)
Theorem clientCheck_matches_route (P : Platform) (file : File) (uid : string) (w : World) :
  session w = authSession (Some uid) -> uid <> "" ->
  (forall text,
     clientCheck file = Some text <->
     uploadPOST P (Some (clientForm file)) w
       = (Ok {| status := 400; body := errorBody text |}, w)) /\
  (clientCheck file = None ->
   exists resp w',
     uploadPOST P (Some (clientForm file)) w = (Ok resp, w') /\
     (status resp = 200 \/ status resp = 500) /\
     (status resp = 200 ->
      exists d, documents (db w') = documents (db w) ++ [d] /\
                title d = file_name file /\ filename d = file_name file /\ userId d = uid)).
Proof.
  intros Hs Hne.
  pose proof (uploadPOST_signedIn P (clientForm file) file uid w Hs Hne eq_refl) as Hrun.
  unfold clientCheck. fold supportedTypes. change (10 * 1024 * 1024)%Z with maxSize.
  destruct (existsb (String.eqb (file_type file)) supportedTypes) eqn:Hty; cbn [negb] in *.
  2:{ split; [| discriminate]. intros text. rewrite Hrun. split.
      - intros [= <-]. reflexivity.
      - intros [= <-]. reflexivity. }
  destruct (file_size file >? maxSize)%Z eqn:Hsz.
  { split; [| discriminate]. intros text. rewrite Hrun. split.
    - intros [= <-]. reflexivity.
    - intros [= <-]. reflexivity. }
  destruct (getFileType_supported _ w Hty) as (kind & Hk & _). rewrite Hk in Hrun.
  assert (Htitle : (if JS.truthy (form_title (clientForm file))
                    then match form_title (clientForm file) with Some t => t | None => "" end
                    else file_name file) = file_name file).
  { simpl. destruct (file_name file =? ""); reflexivity. }
  rewrite Htitle in Hrun.
  destruct (addDocument P (file_bytes file) (file_name file) kind (file_name file) uid w)
    as [[doc | e] w2] eqn:Hadd.
  - split.
    + intros text. rewrite Hrun. split; [discriminate | intros H; discriminate H].
    + intros _. eexists. eexists. split; [exact Hrun |]. split; [left; reflexivity |].
      intros _. destruct (addDocument_Ok_inv _ _ _ _ _ _ _ _ _ Hadd)
        as (pd & w1 & _ & Hdoc & _ & _ & Hd & _).
      exists doc. split; [exact Hd |]. rewrite Hdoc. repeat split.
  - split.
    + intros text. rewrite Hrun. split; [discriminate | intros H; discriminate H].
    + intros _. eexists. eexists. split; [exact Hrun |]. split; [right; reflexivity |].
      discriminate.
Qed.

(** The component refuses a GIF picture, and so does the route. *)
Lemma clientCheck_matches_route_witness :
  uploadPOST (demoPlatform 384) (Some (clientForm gifFile)) (offlineWorld "u1")
    = (Ok {| status := 400;
             body := errorBody
               "Unsupported file type. Please upload PDF, TXT, or image files." |},
       offlineWorld "u1").
Proof.
  refine (proj1 (proj1 (clientCheck_matches_route (demoPlatform 384) gifFile "u1"
                          (offlineWorld "u1") eq_refl _) _) eq_refl).
  discriminate.
Defined.

Lemma auth_sameStore (w w' : World) (r : Result (option string)) :
  auth w = (r, w') -> sameStore w w'.
Proof.
  unfold auth. intros H. destruct (session w); injection H as _ <-; apply sameStore_refl.
Qed.

(** X20.  The constraints of the two tables are an invariant of every entry
    point: the ids of the documents are distinct, every chunk references a
    stored document, and every stored vector has the dimension of the
    column.  Each method of [KnowledgeBase], the search tool and each of the
    four routes keeps them, also when it fails half-way. *)
Theorem constraints_preserved (P : Platform) :
  (forall buffer f k t u, preserves (wellFormed P) (addDocument P buffer f k t u)) /\
  (forall documentId u, preserves (wellFormed P) (deleteDocument documentId u)) /\
  (forall documentId u, preserves (wellFormed P) (reprocessDocument P documentId u)) /\
  (forall query limit thr u, preserves (wellFormed P) (searchSimilar P query limit thr u)) /\
  (forall query limit, preserves (wellFormed P) (execute P query limit)) /\
  (forall formData, preserves (wellFormed P) (uploadPOST P formData)) /\
  preserves (wellFormed P) documentsGET /\
  (forall idParam, preserves (wellFormed P) (documentsDELETE idParam)) /\
  (forall json, preserves (wellFormed P) (reprocessPOST P json)).
Proof.
  destruct (wellFormed_preserved P) as (Hadd & Hdel & Hre & Hsearch & Hexec).
  assert (Hauth : preserves (wellFormed P) auth).
  { apply preserves_sameStore. intros w r w'. apply auth_sameStore. }
  do 5 (split; [assumption |]). split; [| split; [| split]].
  - intros formData. apply preserves_tryCatch; [| intros e; apply preserves_ret].
    apply preserves_bind; [exact Hauth |]. intros u.
    destruct (negb (JS.truthy u)); [apply preserves_ret |].
    apply preserves_bind.
    { destruct formData; [apply preserves_ret | apply preserves_throw]. }
    intros form. destruct (form_file form) as [file |]; [| apply preserves_ret].
    destruct (negb _); [apply preserves_ret |].
    destruct (file_size file >? maxSize)%Z; [apply preserves_ret |].
    apply preserves_bind.
    { unfold getFileType. destruct (_ =? _); [apply preserves_ret |].
      destruct (_ =? _); [apply preserves_ret |].
      destruct (prefix _ _); [apply preserves_ret | apply preserves_throw]. }
    intros kind. apply preserves_bind; [apply Hadd | intros doc; apply preserves_ret].
  - apply preserves_tryCatch; [| intros e; apply preserves_ret].
    apply preserves_bind; [exact Hauth |]. intros u.
    destruct (negb (JS.truthy u)); [apply preserves_ret |].
    apply preserves_bind; [| intros rows; apply preserves_ret].
    unfold getDocuments. apply preserves_bind; [apply preserves_getDb |].
    intros d. apply preserves_ret.
  - intros idParam. apply preserves_tryCatch; [| intros e; apply preserves_ret].
    apply preserves_bind; [exact Hauth |]. intros u.
    destruct (negb (JS.truthy u)); [apply preserves_ret |].
    destruct (negb (JS.truthy idParam)); [apply preserves_ret |].
    apply preserves_bind; [apply Hdel | intros _; apply preserves_ret].
  - intros json. apply preserves_tryCatch; [| intros e; apply preserves_ret].
    apply preserves_bind; [exact Hauth |]. intros u.
    destruct (negb (JS.truthy u)); [apply preserves_ret |].
    apply preserves_bind.
    { destruct json; [apply preserves_ret | apply preserves_throw]. }
    intros documentId. destruct (negb (JS.truthy documentId)); [apply preserves_ret |].
    apply preserves_bind; [apply Hre | intros _; apply preserves_ret].
Qed.
